(** * gc-prompt-library: the prompt catalog page

    A shallow embedding of [src/routes/+page.svelte] (both revisions of the
    page that the repository holds) and of the properties its specification
    states about it.

    - JavaScript strings are sequences of UTF-16 code units; the model keeps
      the code units below 256 (Basic Latin and Latin-1 Supplement), one
      [ascii] per code unit, so a JavaScript string is a [string].
    - The component's [let] variables are the fields of [State]; a handler is
      a function on [State] that also returns the effects it performs
      ([alert], [console.*], [setTimeout]).
    - An [async] handler runs up to its [await], hands a request to the
      runtime and leaves a continuation; the continuation reads the
      component variables again when it resumes, so it takes the state of
      that moment, not the one of the click. *)

From Stdlib Require Import ZArith Ascii String Lia.
From stdpp Require Import base list strings.

Local Open Scope Z_scope.

(** ** JavaScript strings *)

Module JsString.

(** [!s] for a string [s]: only the empty string is falsy. *)
Definition falsy (s : string) : bool :=
  match s with
  | EmptyString => true
  | String _ _ => false
  end.

(** [Boolean(s)], the callback of [.filter(Boolean)]. *)
Definition Boolean (s : string) : bool := negb (falsy s).

(** Lower-casing of one code unit: A-Z, and the Latin-1 capitals U+00C0 to
    U+00DE without the multiplication sign U+00D7, move up by 32. *)
Definition lowerChar (c : ascii) : ascii :=
  let n := N_of_ascii c in
  if ((65 <=? n) && (n <=? 90) ||
      (192 <=? n) && (n <=? 222) && negb (n =? 215))%N
  then ascii_of_N (n + 32)
  else c.

(** [s.toLowerCase()] *)
Fixpoint toLowerCase (s : string) : string :=
  match s with
  | EmptyString => EmptyString
  | String c s' => String (lowerChar c) (toLowerCase s')
  end.

(** [s.startsWith(t)]: the test [includes] makes at each position. *)
Fixpoint startsWith (s t : string) : bool :=
  match t, s with
  | EmptyString, _ => true
  | String _ _, EmptyString => false
  | String b t', String a s' => Ascii.eqb a b && startsWith s' t'
  end.

(** [s.includes(t)]: [t] occurs in [s] at some position. *)
Fixpoint includes (s t : string) : bool :=
  startsWith s t ||
  match s with
  | EmptyString => false
  | String _ s' => includes s' t
  end.

(** White space as [trim] sees it, among the code units below 256:
    TAB, LF, VT, FF, CR, SPACE and NO-BREAK SPACE. *)
Definition isWhiteSpace (c : ascii) : bool :=
  let n := N_of_ascii c in
  ((9 <=? n) && (n <=? 13) || (n =? 32) || (n =? 160))%N.

Fixpoint trimStart (s : string) : string :=
  match s with
  | EmptyString => EmptyString
  | String c s' => if isWhiteSpace c then trimStart s' else s
  end.

Fixpoint trimEnd (s : string) : string :=
  match s with
  | EmptyString => EmptyString
  | String c s' =>
      match trimEnd s' with
      | EmptyString => if isWhiteSpace c then EmptyString else String c EmptyString
      | String _ _ as t => String c t
      end
  end.

(** [s.trim()] *)
Definition trim (s : string) : string := trimEnd (trimStart s).

(** [s.split(sep)] for a separator of one code unit.  The result is never
    empty: a string without separator is its own single segment. *)
Fixpoint split (sep : ascii) (s : string) : list string :=
  match s with
  | EmptyString => [EmptyString]
  | String c s' =>
      if Ascii.eqb c sep then EmptyString :: split sep s'
      else match split sep s' with
           | seg :: rest => String c seg :: rest
           | [] => [String c EmptyString]
           end
  end.

(** [segs.join(sep)], the inverse of [split]. *)
Fixpoint join (sep : ascii) (segs : list string) : string :=
  match segs with
  | [] => EmptyString
  | [seg] => seg
  | seg :: rest => seg +:+ String sep (join sep rest)
  end.

(** The characters of a string, for statements about them. *)
Fixpoint chars (s : string) : list ascii :=
  match s with
  | EmptyString => []
  | String c s' => c :: chars s'
  end.

End JsString.

(** ** JavaScript arrays *)

Module JsArray.

(** [arr.includes(x)] on an array of strings (SameValueZero on strings is
    equality of their code units). *)
Fixpoint includes (arr : list string) (x : string) : bool :=
  match arr with
  | [] => false
  | y :: arr' => String.eqb y x || includes arr' x
  end.

(** A relative index of [slice], clamped into [0, len]. *)
Definition clampIndex (len i : Z) : Z :=
  if i <? 0 then Z.max (len + i) 0 else Z.min i len.

(** [arr.slice(start, end)] *)
Definition slice {A} (start end_ : Z) (arr : list A) : list A :=
  let len := Z.of_nat (length arr) in
  let k := clampIndex len start in
  let final := clampIndex len end_ in
  take (Z.to_nat (Z.max (final - k) 0)) (drop (Z.to_nat k) arr).

End JsArray.

(** ** The data model *)

(** [interface Prompt] *)
Record Prompt := {
  id : Z;
  title : string;
  prompt : string;
  use : string;
  tags : list string;
  updated_at : string;
}.

(** The component's variables.  The first revision of the page declares the
    first nine; the second adds the three of the copy feedback. *)
Record State := {
  prompts : list Prompt;
  filtered : list Prompt;
  searchTerm : string;
  currentFilter : string;
  showModal : bool;
  newTitle : string;
  newPromptText : string;
  newUse : string;
  newTagsInput : string;
  copiedPromptId : option Z;
  copyError : string;
  clipboardSupported : bool;
}.

(** Assignments to one variable. *)
Definition set_prompts (v : list Prompt) (st : State) : State :=
  {| prompts := v; filtered := filtered st; searchTerm := searchTerm st;
     currentFilter := currentFilter st; showModal := showModal st;
     newTitle := newTitle st; newPromptText := newPromptText st;
     newUse := newUse st; newTagsInput := newTagsInput st;
     copiedPromptId := copiedPromptId st; copyError := copyError st;
     clipboardSupported := clipboardSupported st |}.

Definition set_filtered (v : list Prompt) (st : State) : State :=
  {| prompts := prompts st; filtered := v; searchTerm := searchTerm st;
     currentFilter := currentFilter st; showModal := showModal st;
     newTitle := newTitle st; newPromptText := newPromptText st;
     newUse := newUse st; newTagsInput := newTagsInput st;
     copiedPromptId := copiedPromptId st; copyError := copyError st;
     clipboardSupported := clipboardSupported st |}.

Definition set_searchTerm (v : string) (st : State) : State :=
  {| prompts := prompts st; filtered := filtered st; searchTerm := v;
     currentFilter := currentFilter st; showModal := showModal st;
     newTitle := newTitle st; newPromptText := newPromptText st;
     newUse := newUse st; newTagsInput := newTagsInput st;
     copiedPromptId := copiedPromptId st; copyError := copyError st;
     clipboardSupported := clipboardSupported st |}.

Definition set_currentFilter (v : string) (st : State) : State :=
  {| prompts := prompts st; filtered := filtered st; searchTerm := searchTerm st;
     currentFilter := v; showModal := showModal st;
     newTitle := newTitle st; newPromptText := newPromptText st;
     newUse := newUse st; newTagsInput := newTagsInput st;
     copiedPromptId := copiedPromptId st; copyError := copyError st;
     clipboardSupported := clipboardSupported st |}.

Definition set_showModal (v : bool) (st : State) : State :=
  {| prompts := prompts st; filtered := filtered st; searchTerm := searchTerm st;
     currentFilter := currentFilter st; showModal := v;
     newTitle := newTitle st; newPromptText := newPromptText st;
     newUse := newUse st; newTagsInput := newTagsInput st;
     copiedPromptId := copiedPromptId st; copyError := copyError st;
     clipboardSupported := clipboardSupported st |}.

Definition set_newTitle (v : string) (st : State) : State :=
  {| prompts := prompts st; filtered := filtered st; searchTerm := searchTerm st;
     currentFilter := currentFilter st; showModal := showModal st;
     newTitle := v; newPromptText := newPromptText st;
     newUse := newUse st; newTagsInput := newTagsInput st;
     copiedPromptId := copiedPromptId st; copyError := copyError st;
     clipboardSupported := clipboardSupported st |}.

Definition set_newPromptText (v : string) (st : State) : State :=
  {| prompts := prompts st; filtered := filtered st; searchTerm := searchTerm st;
     currentFilter := currentFilter st; showModal := showModal st;
     newTitle := newTitle st; newPromptText := v;
     newUse := newUse st; newTagsInput := newTagsInput st;
     copiedPromptId := copiedPromptId st; copyError := copyError st;
     clipboardSupported := clipboardSupported st |}.

Definition set_newUse (v : string) (st : State) : State :=
  {| prompts := prompts st; filtered := filtered st; searchTerm := searchTerm st;
     currentFilter := currentFilter st; showModal := showModal st;
     newTitle := newTitle st; newPromptText := newPromptText st;
     newUse := v; newTagsInput := newTagsInput st;
     copiedPromptId := copiedPromptId st; copyError := copyError st;
     clipboardSupported := clipboardSupported st |}.

Definition set_newTagsInput (v : string) (st : State) : State :=
  {| prompts := prompts st; filtered := filtered st; searchTerm := searchTerm st;
     currentFilter := currentFilter st; showModal := showModal st;
     newTitle := newTitle st; newPromptText := newPromptText st;
     newUse := newUse st; newTagsInput := v;
     copiedPromptId := copiedPromptId st; copyError := copyError st;
     clipboardSupported := clipboardSupported st |}.

Definition set_copiedPromptId (v : option Z) (st : State) : State :=
  {| prompts := prompts st; filtered := filtered st; searchTerm := searchTerm st;
     currentFilter := currentFilter st; showModal := showModal st;
     newTitle := newTitle st; newPromptText := newPromptText st;
     newUse := newUse st; newTagsInput := newTagsInput st;
     copiedPromptId := v; copyError := copyError st;
     clipboardSupported := clipboardSupported st |}.

Definition set_copyError (v : string) (st : State) : State :=
  {| prompts := prompts st; filtered := filtered st; searchTerm := searchTerm st;
     currentFilter := currentFilter st; showModal := showModal st;
     newTitle := newTitle st; newPromptText := newPromptText st;
     newUse := newUse st; newTagsInput := newTagsInput st;
     copiedPromptId := copiedPromptId st; copyError := v;
     clipboardSupported := clipboardSupported st |}.

Definition set_clipboardSupported (v : bool) (st : State) : State :=
  {| prompts := prompts st; filtered := filtered st; searchTerm := searchTerm st;
     currentFilter := currentFilter st; showModal := showModal st;
     newTitle := newTitle st; newPromptText := newPromptText st;
     newUse := newUse st; newTagsInput := newTagsInput st;
     copiedPromptId := copiedPromptId st; copyError := copyError st;
     clipboardSupported := v |}.

(** ** Effects and asynchronous handlers *)

(** What a handler does besides assigning to the component's variables. *)
Inductive Effect :=
| Alert (message : string)
| ConsoleError (label detail : string)
| ConsoleWarn (message : string)
| ConsoleLog (message : string)
| SetTimeout (callback : State -> State) (delay : Z).

(** The row handed to [.insert([...])]. *)
Record InsertRow := {
  row_title : string;
  row_prompt : string;
  row_use : string;
  row_tags : list string;
}.

(** The promises the handlers await. *)
Inductive Request :=
| Insert (row : InsertRow)
| InsertSelectSingle (row : InsertRow)
| ClipboardWriteText (text : string).

(** The [error] object of the store's answer. *)
Record StoreError := { message : string }.

(** [{ data, error }], the answer to [.insert(...).select().single()]. *)
Record InsertResult := {
  data : option Prompt;
  error : option StoreError;
}.

(** How [navigator.clipboard.writeText] settles. *)
Inductive WriteOutcome :=
| Resolved
| Rejected (err : string).

(** The two readings of the clock a handler makes after its [await]:
    [Date.now()] and [new Date().toISOString()]. *)
Record Clock := {
  Date_now : Z;
  Date_toISOString : string;
}.

(** An [async] handler with at most one [await]: it either returns at once,
    or stops at the [await] with the request and the rest of its body.  The
    rest keeps the handler's local constants and takes the promise's answer,
    the clock and the component's variables as they are when it resumes. *)
Inductive Async (Resp : Type) :=
| Return (st : State) (out : list Effect)
| Await (st : State) (out : list Effect) (req : Request)
        (k : Resp -> Clock -> State -> State * list Effect).

Arguments Return {Resp} st out.
Arguments Await {Resp} st out req k.

(** The handler run to its end when nothing else happens while the promise is
    pending: the state and the request it issued, if any. *)
Definition runAsync {Resp} (a : Async Resp) (answer : Resp) (clk : Clock)
  : State * list Effect * option Request :=
  match a with
  | Return st out => (st, out, None)
  | Await st out req k =>
      let '(st', out') := k answer clk st in (st', out ++ out', Some req)
  end.

(** ** Handlers the two revisions share *)

Import JsString.

Definition matchFilter (currentFilter : string) (p : Prompt) : bool :=
  String.eqb currentFilter "all" || JsArray.includes (tags p) currentFilter.

Definition matchSearch (term : string) (p : Prompt) : bool :=
  falsy term ||
  includes (toLowerCase (title p)) term ||
  includes (toLowerCase (prompt p)) term ||
  includes (toLowerCase (use p)) term.

Definition updateFiltered (st : State) : State :=
  let term := toLowerCase (searchTerm st) in
  set_filtered
    (List.filter (fun p => matchFilter (currentFilter st) p && matchSearch term p)
                 (prompts st))
    st.

Definition onSearch (value : string) (st : State) : State :=
  updateFiltered (set_searchTerm value st).

Definition setFilter (filter : string) (st : State) : State :=
  updateFiltered (set_currentFilter filter st).

Definition openModal (st : State) : State :=
  set_showModal true
    (set_newTagsInput "" (set_newUse "" (set_newPromptText "" (set_newTitle "" st)))).

Definition closeModal (st : State) : State := set_showModal false st.

(** The tags of a new record, from the raw input of the tags field. *)
Definition tagsOf (newTagsInput : string) : list string :=
  JsArray.slice 0 3
    (List.filter Boolean (List.map trim (split "," newTagsInput))).

(** The component as it is created from the page data. *)
Definition init (data_prompts : list Prompt) : State :=
  {| prompts := data_prompts; filtered := data_prompts;
     searchTerm := ""; currentFilter := "all"; showModal := false;
     newTitle := ""; newPromptText := ""; newUse := ""; newTagsInput := "";
     copiedPromptId := None; copyError := ""; clipboardSupported := false |}.

Definition validationMessage : string := "Please fill in Title, Prompt, and Use".

(** ** First revision of the page *)

Module V1.

(** [savePrompt] after its [await]. *)
Definition savePrompt_resume (tags : list string)
    (error : option StoreError) (clk : Clock) (st : State)
  : State * list Effect :=
  match error with
  | Some e => (st, [ConsoleError "Error saving prompt:" (message e)])
  | None =>
      let st1 :=
        set_prompts
          ({| id := -1; title := newTitle st; prompt := newPromptText st;
              use := newUse st; tags := tags;
              updated_at := Date_toISOString clk |} :: prompts st) st in
      (closeModal (updateFiltered st1), [])
  end.

Definition savePrompt (st : State) : Async (option StoreError) :=
  if falsy (newTitle st) || falsy (newPromptText st) || falsy (newUse st)
  then Return st [Alert validationMessage]
  else
    let tags := tagsOf (newTagsInput st) in
    Await st []
      (Insert {| row_title := newTitle st; row_prompt := newPromptText st;
                 row_use := newUse st; row_tags := tags |})
      (savePrompt_resume tags).

End V1.

(** The state an asynchronous handler leaves when it returns or suspends. *)
Definition stateOf {Resp} (a : Async Resp) : State :=
  match a with
  | Return st _ => st
  | Await st _ _ _ => st
  end.

(** ** Second revision of the page *)

Module V2.

Definition clipboardWarning : string :=
  "Clipboard API not supported or not available in this context (e.g., non-HTTPS).".

Definition clipboardNotice : string :=
  "Clipboard access is not available. This might be due to browser settings or using HTTP instead of HTTPS.".

Definition copyFailure : string :=
  "Failed to copy prompt. See console for details.".

Definition fallbackWarning : string :=
  "Prompt saved, but failed to retrieve the inserted data immediately.".

(** The callback of [onMount]; [hasWriteText] is
    [!!navigator.clipboard?.writeText]. *)
Definition onMount (hasWriteText : bool) (st : State) : State * list Effect :=
  (set_clipboardSupported hasWriteText st,
   if hasWriteText then [] else [ConsoleWarn clipboardWarning]).

(** [savePrompt] after its [await]. *)
Definition savePrompt_resume (tags : list string)
    (res : InsertResult) (clk : Clock) (st : State)
  : State * list Effect :=
  match error res with
  | Some e =>
      (st, [ConsoleError "Error saving prompt:" (message e);
            Alert ("Error saving prompt: " +:+ message e)])
  | None =>
      match data res with
      | Some insertedData =>
          (closeModal
             (updateFiltered (set_prompts (insertedData :: prompts st) st)),
           [])
      | None =>
          let tempPromptData :=
            {| id := Date_now clk; title := newTitle st;
               prompt := newPromptText st; use := newUse st; tags := tags;
               updated_at := Date_toISOString clk |} in
          (closeModal
             (updateFiltered (set_prompts (tempPromptData :: prompts st) st)),
           [ConsoleWarn fallbackWarning])
      end
  end.

Definition savePrompt (st : State) : Async InsertResult :=
  if falsy (newTitle st) || falsy (newPromptText st) || falsy (newUse st)
  then Return st [Alert validationMessage]
  else
    let tags := tagsOf (newTagsInput st) in
    Await st []
      (InsertSelectSingle
         {| row_title := newTitle st; row_prompt := newPromptText st;
            row_use := newUse st; row_tags := tags |})
      (savePrompt_resume tags).

(** The callback handed to [setTimeout] by a copy of record [id]. *)
Definition revertCopied (id : Z) (st : State) : State :=
  match copiedPromptId st with
  | Some current => if current =? id then set_copiedPromptId None st else st
  | None => st
  end.

(** [copyPrompt] after its [await]: the [try] body on success, the [catch]
    body on rejection. *)
Definition copyPrompt_resume (id : Z)
    (outcome : WriteOutcome) (clk : Clock) (st : State)
  : State * list Effect :=
  match outcome with
  | Resolved =>
      (set_copiedPromptId (Some id) st,
       [ConsoleLog "Prompt copied to clipboard!";
        SetTimeout (revertCopied id) 1500])
  | Rejected err =>
      (set_copyError copyFailure st, [ConsoleError "Failed to copy text: " err])
  end.

Definition copyPrompt (textToCopy : string) (id : Z) (st : State)
  : Async WriteOutcome :=
  if negb (clipboardSupported st) then Return st [Alert clipboardNotice]
  else if falsy textToCopy then Return st []
  else
    Await (set_copiedPromptId None (set_copyError "" st)) []
      (ClipboardWriteText textToCopy)
      (copyPrompt_resume id).

(** The card of [p] shows [Copied!] instead of its text. *)
Definition showsCopied (st : State) (p : Prompt) : bool :=
  match copiedPromptId st with
  | Some current => current =? id p
  | None => false
  end.

(** Everything that can happen to the component: the user's actions, and
    the promises and timers of earlier actions coming due. *)
Inductive Event :=
| Mounted (hasWriteText : bool)
| SearchInput (value : string)
| FilterClicked (cat : string)
| AddClicked
| ModalDismissed
| TitleEdited (value : string)
| PromptTextEdited (value : string)
| UseEdited (value : string)
| TagsEdited (value : string)
| SaveClicked
| SaveSettled (tags : list string) (res : InsertResult) (clk : Clock)
| CopyClicked (p : Prompt)
| CopySettled (id : Z) (outcome : WriteOutcome) (clk : Clock)
| RevertDue (id : Z).

Definition handle (ev : Event) (st : State) : State :=
  match ev with
  | Mounted b => fst (onMount b st)
  | SearchInput v => onSearch v st
  | FilterClicked cat => setFilter cat st
  | AddClicked => openModal st
  | ModalDismissed => closeModal st
  | TitleEdited v => set_newTitle v st
  | PromptTextEdited v => set_newPromptText v st
  | UseEdited v => set_newUse v st
  | TagsEdited v => set_newTagsInput v st
  | SaveClicked => stateOf (savePrompt st)
  | SaveSettled tags res clk => fst (savePrompt_resume tags res clk st)
  | CopyClicked p => stateOf (copyPrompt (prompt p) (id p) st)
  | CopySettled i outcome clk => fst (copyPrompt_resume i outcome clk st)
  | RevertDue i => revertCopied i st
  end.

Definition run (evs : list Event) (st : State) : State :=
  foldl (fun s ev => handle ev s) st evs.


End V2.

(** The events of the first revision, which has no copy feedback. *)
Module V1Events.

Inductive Event :=
| SearchInput (value : string)
| FilterClicked (cat : string)
| AddClicked
| ModalDismissed
| TitleEdited (value : string)
| PromptTextEdited (value : string)
| UseEdited (value : string)
| TagsEdited (value : string)
| SaveClicked
| SaveSettled (tags : list string) (error : option StoreError) (clk : Clock).

Definition handle (ev : Event) (st : State) : State :=
  match ev with
  | SearchInput v => onSearch v st
  | FilterClicked cat => setFilter cat st
  | AddClicked => openModal st
  | ModalDismissed => closeModal st
  | TitleEdited v => set_newTitle v st
  | PromptTextEdited v => set_newPromptText v st
  | UseEdited v => set_newUse v st
  | TagsEdited v => set_newTagsInput v st
  | SaveClicked => stateOf (V1.savePrompt st)
  | SaveSettled tags error clk => fst (V1.savePrompt_resume tags error clk st)
  end.

Definition run (evs : list Event) (st : State) : State :=
  foldl (fun s ev => handle ev s) st evs.

End V1Events.

(** ** The specification's own words, for comparison with the code *)

Module Spec.

(** [t] is a substring of [s]. *)
Definition Substring (t s : string) : Prop :=
  exists pre post, s = pre +:+ t +:+ post.

(** The inclusion rule of the filtered view. *)
Definition Included (searchTerm categoryFilter : string) (r : Prompt) : Prop :=
  (categoryFilter = "all" \/ categoryFilter ∈ tags r) /\
  (searchTerm = "" \/
   Substring (toLowerCase searchTerm) (toLowerCase (title r)) \/
   Substring (toLowerCase searchTerm) (toLowerCase (prompt r)) \/
   Substring (toLowerCase searchTerm) (toLowerCase (use r))).

(** [view] is the part of [full] that satisfies [P]: the records of [full]
    that satisfy it, each once, in the order of [full]. *)
Inductive Filtered (P : Prompt -> Prop) : list Prompt -> list Prompt -> Prop :=
| Filtered_nil : Filtered P [] []
| Filtered_keep r full view :
    P r -> Filtered P full view -> Filtered P (r :: full) (r :: view)
| Filtered_drop r full view :
    ~ P r -> Filtered P full view -> Filtered P (r :: full) view.

(** Every character of [s] is white space. *)
Definition Blank (s : string) : Prop :=
  Forall (fun c => isWhiteSpace c = true) (chars s).

(** [t] has no white space at either end. *)
Definition Tight (t : string) : Prop :=
  forall c, (head (chars t) = Some c \/ last (chars t) = Some c) ->
            isWhiteSpace c = false.

(** [t] is [s] trimmed: [s] without the white space at its two ends. *)
Definition Trimmed (s t : string) : Prop :=
  exists l r, s = l +:+ t +:+ r /\ Blank l /\ Blank r /\ Tight t.

(** [segs] are the comma-separated segments of [raw]. *)
Definition Segments (raw : string) (segs : list string) : Prop :=
  join "," segs = raw /\ segs <> [] /\
  Forall (fun seg => ","%char ∉ chars seg) segs.

(** The tags of a new record: split on comma, trim each segment, drop the
    empty ones, keep at most three in order. *)
Definition Tags (raw : string) (result : list string) : Prop :=
  exists segs trimmed,
    Segments raw segs /\
    Forall2 Trimmed segs trimmed /\
    result = take 3 (filter (fun t => t <> "") trimmed).

End Spec.

(** ** Concrete inputs, for the examples below *)

Module Sample.

(** The form as the specification's creation scenario fills it. *)
Definition filledForm : State :=
  set_newTagsInput "a, b, c, d"
    (set_newUse "U" (set_newPromptText "B" (set_newTitle "T" (openModal (init []))))).

(** The record of the specification's end-to-end scenario. *)
Definition recordX : Prompt :=
  {| id := 1; title := "X"; prompt := "Y"; use := "Z"; tags := ["admin"];
     updated_at := "2024-01-01" |}.

Definition recordA : Prompt :=
  {| id := 7; title := "Intro"; prompt := "Write an intro"; use := "Blog";
     tags := ["copywriting"]; updated_at := "2024-02-01" |}.

Definition recordB : Prompt :=
  {| id := 8; title := "Logo"; prompt := "Draw a logo"; use := "Brand";
     tags := ["image gen"]; updated_at := "2024-01-15" |}.

(** The page of the second revision, mounted where the clipboard can be
    written. *)
Definition mounted : State :=
  fst (V2.onMount true (init [recordA; recordB])).

Definition clock : Clock :=
  {| Date_now := 1700000000000; Date_toISOString := "2023-11-14T22:13:20.000Z" |}.

Definition storeDown : StoreError := {| message := "Failed to fetch" |}.

(** One creation through the first revision that the store accepts: the
    modal is opened, the three required fields are typed, the form is saved
    and the store reports no error. *)
Definition createV1 (st : State) : State :=
  let form :=
    set_newUse "U" (set_newPromptText "B" (set_newTitle "T" (openModal st))) in
  fst (fst (runAsync (V1.savePrompt form) None clock)).

End Sample.

(** ** What the page displays *)

Module Template.

(** One card of the list: the key of the keyed [each] block, the title, the
    text block (the prompt text, or [Copied!] while the feedback is on this
    record), the use, and the tags of the tag row. *)
Record Card := {
  card_key : Z;
  card_title : string;
  card_text : string;
  card_use : string;
  card_tags : list string;
}.

(** The content of [main]: the placeholder, or the cards. *)
Inductive Main :=
| NoResults (message : string)
| Cards (cards : list Card).

Definition noResults : string := "No prompts match your search or filter.".

(** The tag row of a card: absent when the record has no tag, otherwise the
    first three. *)
Definition shownTags (p : Prompt) : list string :=
  if (0 <? length (tags p))%nat then JsArray.slice 0 3 (tags p) else [].

(** A card of the second revision. *)
Definition renderCard (st : State) (p : Prompt) : Card :=
  {| card_key := id p;
     card_title := title p;
     card_text := if V2.showsCopied st p then "Copied!" else prompt p;
     card_use := use p;
     card_tags := shownTags p |}.

(** A card of the first revision, which has no copy feedback. *)
Definition renderCardV1 (p : Prompt) : Card :=
  {| card_key := id p; card_title := title p; card_text := prompt p;
     card_use := use p; card_tags := shownTags p |}.

Definition renderMain (st : State) : Main :=
  if (length (filtered st) =? 0)%nat then NoResults noResults
  else Cards (renderCard st <$> filtered st).

Definition renderMainV1 (st : State) : Main :=
  if (length (filtered st) =? 0)%nat then NoResults noResults
  else Cards (renderCardV1 <$> filtered st).

(** The paragraph above the cards that shows the copy error, when there is
    one. *)
Definition copyErrorNotice (st : State) : option string :=
  if falsy (copyError st) then None else Some (copyError st).

(** The buttons of the filter row. *)
Definition categories : list string :=
  ["all"; "copywriting"; "image gen"; "admin"; "brainstorming"].

(** The key handler of the modal backdrop and the click on it:
    [targetIsBackdrop] is [e.target === e.currentTarget]. *)
Definition onBackdropKeydown (key : string) (st : State) : State :=
  if String.eqb key "Escape" then closeModal st else st.

Definition onBackdropClick (targetIsBackdrop : bool) (st : State) : State :=
  if targetIsBackdrop then closeModal st else st.

(** The key handler of a card's text block. *)
Definition onCardKeydown (key : string) (p : Prompt) (st : State)
  : Async WriteOutcome :=
  if String.eqb key "Enter" || String.eqb key " "
  then V2.copyPrompt (prompt p) (id p) st
  else Return st [].

End Template.

(** ** The server side of the route *)

Module Server.

(** [{ data, error }], the answer to the [select] of all rows ordered by
    [updated_at], newest first. *)
Record SelectResult := {
  select_data : option (list Prompt);
  select_error : option StoreError;
}.

(** How [load] ends: it throws the store's error, or returns the page data
    [{ prompts: data }]. *)
Inductive LoadResult :=
| Throws (e : StoreError)
| Returns (prompts : option (list Prompt)).

Definition load (res : SelectResult) : LoadResult * list Effect :=
  match select_error res with
  | Some e => (Throws e, [ConsoleError "Failed to load prompts" (message e)])
  | None => (Returns (select_data res), [])
  end.

(** The component created from what [load] returned; there is none when
    [load] threw or returned no array. *)
Definition page (r : LoadResult) : option State :=
  match r with
  | Throws _ => None
  | Returns prompts => init <$> prompts
  end.

End Server.

(** ** Runs of the page *)

Module Trace.

(** The mount of the component. *)
Definition isMount (ev : V2.Event) : bool :=
  match ev with
  | V2.Mounted _ => true
  | _ => false
  end.

(** The view is the one [updateFiltered] would compute now. *)
Definition viewCurrent (st : State) : Prop :=
  filtered st = filtered (updateFiltered st).

(** Events of the second revision other than the mount and the settling of a
    clipboard write. *)
Definition withoutClipboard (ev : V2.Event) : bool :=
  match ev with
  | V2.Mounted _ => false
  | V2.CopySettled _ _ _ => false
  | _ => true
  end.

(** The events of the copy feedback. *)
Definition copyEvent (ev : V2.Event) : bool :=
  match ev with
  | V2.CopyClicked _ => true
  | V2.CopySettled _ _ _ => true
  | V2.RevertDue _ => true
  | _ => false
  end.

(** Among them, the two steps of a copy action that assign to [copyError]. *)
Definition copyAction (ev : V2.Event) : bool :=
  match ev with
  | V2.CopyClicked _ => true
  | V2.CopySettled _ _ _ => true
  | _ => false
  end.

(** Events that close the modal: a dismissal, and a save that the store
    accepted. *)
Definition closesModal (ev : V2.Event) : bool :=
  match ev with
  | V2.ModalDismissed => true
  | V2.SaveSettled _ res _ =>
      match error res with Some _ => false | None => true end
  | _ => false
  end.

End Trace.

(** * Properties *)

(** ** Strings and arrays *)

Section StringFacts.

Lemma app_empty_l s : "" +:+ s = s.
Proof. reflexivity. Qed.

Lemma app_cons c s t : String c s +:+ t = String c (s +:+ t).
Proof. reflexivity. Qed.

Lemma app_empty_r s : s +:+ "" = s.
Proof. induction s as [|c s IH]; [done|]. by rewrite app_cons, IH. Qed.

Lemma app_assoc_str s t u : (s +:+ t) +:+ u = s +:+ t +:+ u.
Proof. induction s as [|c s IH]; [done|]. by rewrite !app_cons, IH. Qed.

Lemma chars_app s t : chars (s +:+ t) = chars s ++ chars t.
Proof. induction s as [|c s IH]; [done|]. rewrite app_cons. simpl. by rewrite IH. Qed.

Lemma chars_inj s t : chars s = chars t -> s = t.
Proof.
  revert t. induction s as [|c s IH]; intros [|d t] H; simplify_eq/=; [done|].
  f_equal. by apply IH.
Qed.

Lemma falsy_true s : falsy s = true <-> s = "".
Proof. by destruct s. Qed.

Lemma falsy_false s : falsy s = false <-> s <> "".
Proof. by destruct s. Qed.

Lemma Boolean_true s : Boolean s = true <-> s <> "".
Proof. by destruct s. Qed.

Lemma toLowerCase_empty s : toLowerCase s = "" <-> s = "".
Proof. by destruct s. Qed.

Lemma toLowerCase_length s : String.length (toLowerCase s) = String.length s.
Proof. induction s as [|c s IH]; simpl; congruence. Qed.

Lemma startsWith_spec s t :
  startsWith s t = true <-> exists post, s = t +:+ post.
Proof.
  revert s. induction t as [|b t IH]; intros s.
  - destruct s; simpl; split; eauto.
  - destruct s as [|a s]; simpl.
    + split; [done|]. intros [post H]. by rewrite app_cons in H.
    + rewrite andb_true_iff, Ascii.eqb_eq, IH. split.
      * intros [-> [post ->]]. exists post. by rewrite app_cons.
      * intros [post H]. rewrite app_cons in H. simplify_eq. eauto.
Qed.

Lemma includes_spec s t : includes s t = true <-> Spec.Substring t s.
Proof.
  unfold Spec.Substring. induction s as [|a s IH].
  - cbn [includes]. rewrite orb_false_r, startsWith_spec. split.
    + intros [post H]. by exists "", post.
    + intros [[|c pre] [post H]].
      * rewrite app_empty_l in H. eauto.
      * by rewrite app_cons in H.
  - cbn [includes]. rewrite orb_true_iff, startsWith_spec, IH. split.
    + intros [[post H]|(pre & post & ->)].
      * by exists "", post.
      * exists (String a pre), post. by rewrite app_cons.
    + intros [[|c pre] [post H]].
      * left. rewrite app_empty_l in H. eauto.
      * right. rewrite app_cons in H. simplify_eq. eauto.
Qed.

Lemma includes_empty s : includes s "" = true.
Proof. apply includes_spec. exists "", s. done. Qed.

Lemma array_includes_spec arr x : JsArray.includes arr x = true <-> x ∈ arr.
Proof.
  induction arr as [|y arr IH]; simpl.
  - split; [done|]. by intros ?%elem_of_nil.
  - rewrite orb_true_iff, String.eqb_eq, IH, elem_of_cons.
    split; (intros [?|?]; [left; congruence|by right]).
Qed.

Lemma slice_0 {A} (n : nat) (arr : list A) :
  JsArray.slice 0 (Z.of_nat n) arr = take n arr.
Proof.
  unfold JsArray.slice, JsArray.clampIndex. simpl.
  destruct (Z.ltb_spec (Z.of_nat n) 0) as [Hn|_]; [lia|].
  rewrite (Z.min_l 0) by lia. rewrite Z.sub_0_r.
  change (drop (Z.to_nat 0) arr) with arr.
  destruct (decide (n <= length arr)%nat) as [Hle|Hgt].
  - f_equal. lia.
  - rewrite !take_ge; [done|lia|lia].
Qed.

End StringFacts.

(** ** [split] and [join] *)

Section SplitFacts.
Variable sep : ascii.

Lemma split_nonempty s : split sep s <> [].
Proof.
  destruct s as [|c s]; simpl; [done|].
  destruct (Ascii.eqb c sep); [done|]. by destruct (split sep s).
Qed.

Lemma join_cons seg segs :
  segs <> [] -> join sep (seg :: segs) = seg +:+ String sep (join sep segs).
Proof. by destruct segs. Qed.

Lemma join_split s : join sep (split sep s) = s.
Proof.
  induction s as [|c s IH]; simpl; [done|].
  destruct (Ascii.eqb_spec c sep) as [->|Hc].
  - rewrite join_cons by apply split_nonempty. by rewrite IH.
  - pose proof (split_nonempty s) as Hne.
    destruct (split sep s) as [|seg [|seg' rest]]; [done|..].
    + simpl in *. by rewrite IH.
    + change (join sep (String c seg :: seg' :: rest))
        with (String c (seg +:+ String sep (join sep (seg' :: rest)))).
      f_equal. exact IH.
Qed.

Lemma split_no_sep s : Forall (fun seg => sep ∉ chars seg) (split sep s).
Proof.
  induction s as [|c s IH]; simpl.
  - repeat constructor. by intros ?%elem_of_nil.
  - destruct (Ascii.eqb_spec c sep) as [->|Hc].
    + constructor; [by intros ?%elem_of_nil|done].
    + destruct (split sep s) as [|seg rest].
      * repeat constructor. simpl. by intros [?|?%elem_of_nil]%elem_of_cons.
      * inversion_clear IH as [|? ? Hseg Hrest]. constructor; [|done].
        simpl. by intros [?|?]%elem_of_cons.
Qed.

(** [split] of a segment without separator followed by more text. *)
Lemma split_app_sep seg s :
  sep ∉ chars seg ->
  split sep (seg +:+ String sep s) = seg :: split sep s.
Proof.
  induction seg as [|c seg IH]; intros Hseg.
  - rewrite app_empty_l. simpl. by rewrite Ascii.eqb_refl.
  - rewrite app_cons. simpl in *.
    apply not_elem_of_cons in Hseg as [Hc Hseg].
    destruct (Ascii.eqb_spec c sep) as [->|_]; [done|].
    by rewrite IH.
Qed.

Lemma split_single seg : sep ∉ chars seg -> split sep seg = [seg].
Proof.
  induction seg as [|c seg IH]; intros Hseg; simpl in *; [done|].
  apply not_elem_of_cons in Hseg as [Hc Hseg].
  destruct (Ascii.eqb_spec c sep) as [->|_]; [done|].
  by rewrite IH.
Qed.

(** The segments of a string are determined by the string. *)
Lemma split_join segs :
  segs <> [] -> Forall (fun seg => sep ∉ chars seg) segs ->
  split sep (join sep segs) = segs.
Proof.
  induction segs as [|seg segs IH]; intros Hne Hall; [done|].
  inversion_clear Hall as [|? ? Hseg Hrest].
  destruct segs as [|seg' segs].
  - simpl. by apply split_single.
  - rewrite join_cons by done. rewrite split_app_sep by done.
    f_equal. by apply IH.
Qed.

End SplitFacts.

Example split_keeps_empty_segments : split "," ",a,,b," = [""; "a"; ""; "b"; ""].
Proof. reflexivity. Qed.

Example split_of_empty : split "," "" = [""].
Proof. reflexivity. Qed.

Example toLowerCase_latin1 :
  toLowerCase (String "065" (String "192" (String "215" (String "222" "")))) =
  String "097" (String "224" (String "215" (String "254" ""))).
Proof. reflexivity. Qed.

(** ** [trim] *)

Section TrimFacts.

Lemma Blank_empty : Spec.Blank "".
Proof. constructor. Qed.

Lemma Blank_cons c s :
  Spec.Blank (String c s) <-> isWhiteSpace c = true /\ Spec.Blank s.
Proof. unfold Spec.Blank. simpl. by rewrite Forall_cons. Qed.

Lemma trimStart_Blank l s : Spec.Blank l -> trimStart (l +:+ s) = trimStart s.
Proof.
  induction l as [|c l IH]; intros Hl; [done|].
  apply Blank_cons in Hl as [Hc Hl]. rewrite app_cons. simpl.
  rewrite Hc. by apply IH.
Qed.

Lemma trimStart_split s :
  exists l, s = l +:+ trimStart s /\ Spec.Blank l.
Proof.
  induction s as [|c s (l & Hs & Hl)]; simpl.
  - exists "". split; [done|apply Blank_empty].
  - destruct (isWhiteSpace c) eqn:Hc.
    + exists (String c l). split.
      * rewrite app_cons. by f_equal.
      * by apply Blank_cons.
    + exists "". split; [done|apply Blank_empty].
Qed.

Lemma trimStart_head s c :
  head (chars (trimStart s)) = Some c -> isWhiteSpace c = false.
Proof.
  induction s as [|d s IH]; simpl; [done|].
  destruct (isWhiteSpace d) eqn:Hd; [done|].
  simpl. by intros [= <-].
Qed.

Lemma trimStart_tight s :
  (forall c, head (chars s) = Some c -> isWhiteSpace c = false) ->
  trimStart s = s.
Proof.
  destruct s as [|c s]; simpl; [done|]. intros H. by rewrite (H c).
Qed.

Lemma trimEnd_Blank r : Spec.Blank r -> trimEnd r = "".
Proof.
  induction r as [|c r IH]; intros Hr; [done|].
  apply Blank_cons in Hr as [Hc Hr]. simpl. by rewrite IH, Hc.
Qed.

Lemma trimEnd_app_Blank t r : Spec.Blank r -> trimEnd (t +:+ r) = trimEnd t.
Proof.
  intros Hr. induction t as [|c t IH].
  - rewrite app_empty_l. by apply trimEnd_Blank.
  - rewrite app_cons. simpl. by rewrite IH.
Qed.

Lemma trimEnd_split s :
  exists r, s = trimEnd s +:+ r /\ Spec.Blank r.
Proof.
  induction s as [|c s (r & Hs & Hr)]; simpl.
  - exists "". split; [done|apply Blank_empty].
  - destruct (trimEnd s) as [|d t] eqn:Ht.
    + rewrite app_empty_l in Hs. subst r.
      destruct (isWhiteSpace c) eqn:Hc.
      * exists (String c s). split; [done|by apply Blank_cons].
      * exists s. by split.
    + exists r. split; [|done]. rewrite app_cons. by f_equal.
Qed.

Lemma trimEnd_last s c :
  last (chars (trimEnd s)) = Some c -> isWhiteSpace c = false.
Proof.
  induction s as [|d s IH]; simpl; [done|].
  destruct (trimEnd s) as [|e t] eqn:Ht.
  - destruct (isWhiteSpace d) eqn:Hd; [done|]. simpl. by intros [= <-].
  - simpl in *. exact IH.
Qed.

Lemma trimEnd_head s c :
  head (chars (trimEnd s)) = Some c -> head (chars s) = Some c.
Proof.
  destruct s as [|d s]; simpl; [done|].
  destruct (trimEnd s); [|done].
  by destruct (isWhiteSpace d).
Qed.

Lemma trimEnd_tight t :
  (forall c, last (chars t) = Some c -> isWhiteSpace c = false) ->
  trimEnd t = t.
Proof.
  induction t as [|c t IH]; intros H; [done|]. simpl.
  destruct t as [|d t].
  - simpl. by rewrite (H c).
  - rewrite IH; [done|]. intros e He. apply H. exact He.
Qed.

(** [trim] does what the word says. *)
Lemma trim_Trimmed s : Spec.Trimmed s (trim s).
Proof.
  destruct (trimStart_split s) as (l & Hs & Hl).
  destruct (trimEnd_split (trimStart s)) as (r & Ht & Hr).
  exists l, r. repeat split; [|done|done|].
  - unfold trim. by rewrite <- Ht.
  - intros c [Hc|Hc].
    + apply trimEnd_head in Hc. by apply trimStart_head in Hc.
    + by apply trimEnd_last in Hc.
Qed.

(** And nothing else does. *)
Lemma Trimmed_trim s t : Spec.Trimmed s t -> t = trim s.
Proof.
  intros (l & r & -> & Hl & Hr & Ht). unfold trim.
  rewrite trimStart_Blank by done.
  destruct t as [|c t].
  - rewrite app_empty_l.
    destruct (trimStart_split r) as (l' & Hr' & _).
    assert (Spec.Blank (trimStart r)) as Hb.
    { unfold Spec.Blank in *. rewrite Hr', chars_app in Hr.
      by apply Forall_app in Hr as [_ ?]. }
    by rewrite trimEnd_Blank.
  - rewrite trimStart_tight.
    + rewrite trimEnd_app_Blank by done. symmetry. apply trimEnd_tight.
      intros e He. apply Ht. by right.
    + rewrite app_cons. simpl. intros e [= <-]. apply Ht. by left.
Qed.

End TrimFacts.

Example trim_both_ends :
  trim (String "009" " a b " +:+ String "160" "") = "a b".
Proof. reflexivity. Qed.

Example tagsOf_blank_input : tagsOf " , ,," = [].
Proof. reflexivity. Qed.

(** ** The tags of a new record *)

Section TagFacts.

(** The callback form of [Array.prototype.filter] against the filter of a
    decidable property. *)
Lemma List_filter_decide {A} (f : A -> bool) (P : A -> Prop)
    `{!forall x, Decision (P x)} (l : list A) :
  (forall x, f x = true <-> P x) -> List.filter f l = filter P l.
Proof.
  intros Hf. induction l as [|x l IH]; [done|]. simpl.
  rewrite filter_cons. destruct (decide (P x)) as [HP|HP].
  - apply Hf in HP. rewrite HP. by f_equal.
  - destruct (f x) eqn:Hx; [|done]. by apply Hf in Hx.
Qed.

Lemma List_filter_elem_of {A} (f : A -> bool) (l : list A) x :
  x ∈ List.filter f l <-> x ∈ l /\ f x = true.
Proof. rewrite !list_elem_of_In. apply filter_In. Qed.

Lemma List_filter_sublist {A} (f : A -> bool) (l : list A) :
  List.filter f l `sublist_of` l.
Proof.
  induction l as [|x l IH]; simpl; [constructor|].
  destruct (f x); by constructor.
Qed.

Lemma tagsOf_pipeline raw :
  tagsOf raw = take 3 (filter (fun t => t <> "") (trim <$> split "," raw)).
Proof.
  unfold tagsOf. change 3 with (Z.of_nat 3). rewrite slice_0. f_equal.
  apply List_filter_decide, Boolean_true.
Qed.

Lemma Segments_split raw : Spec.Segments raw (split "," raw).
Proof.
  split; [apply join_split|]. split; [apply split_nonempty|apply split_no_sep].
Qed.

Lemma Segments_unique raw segs : Spec.Segments raw segs -> segs = split "," raw.
Proof. intros (<- & Hne & Hall). symmetry. by apply split_join. Qed.

Lemma Forall2_Trimmed segs trimmed :
  Forall2 Spec.Trimmed segs trimmed <-> trimmed = trim <$> segs.
Proof.
  split.
  - induction 1 as [|s t segs trimmed Hst _ IH]; [done|].
    simpl. f_equal; [by apply Trimmed_trim|done].
  - intros ->. apply Forall2_fmap_r, Forall_Forall2_diag, Forall_forall.
    intros s _. apply trim_Trimmed.
Qed.

Lemma Tags_tagsOf raw : Spec.Tags raw (tagsOf raw).
Proof.
  exists (split "," raw), (trim <$> split "," raw). split; [apply Segments_split|].
  split; [by apply Forall2_Trimmed|apply tagsOf_pipeline].
Qed.

Lemma Tags_unique raw result : Spec.Tags raw result -> result = tagsOf raw.
Proof.
  intros (segs & trimmed & Hsegs & Htrim & ->).
  apply Segments_unique in Hsegs as ->. apply Forall2_Trimmed in Htrim as ->.
  symmetry. apply tagsOf_pipeline.
Qed.

Lemma tagsOf_length raw : (length (tagsOf raw) <= 3)%nat.
Proof. rewrite tagsOf_pipeline, length_take. lia. Qed.

End TagFacts.


(** ** The filtered view *)

Section FilterFacts.

Lemma matchFilter_spec cat p :
  matchFilter cat p = true <-> cat = "all" \/ cat ∈ tags p.
Proof.
  unfold matchFilter. by rewrite orb_true_iff, String.eqb_eq, array_includes_spec.
Qed.

(** The code tests the lower-cased term for emptiness, the rule the term as
    typed; and an empty term is found in every string. *)
Lemma matchSearch_spec searchTerm p :
  matchSearch (toLowerCase searchTerm) p = true <->
  searchTerm = "" \/
  Spec.Substring (toLowerCase searchTerm) (toLowerCase (title p)) \/
  Spec.Substring (toLowerCase searchTerm) (toLowerCase (prompt p)) \/
  Spec.Substring (toLowerCase searchTerm) (toLowerCase (use p)).
Proof.
  unfold matchSearch.
  rewrite !orb_true_iff, falsy_true, toLowerCase_empty, !includes_spec. tauto.
Qed.

Lemma matches_Included searchTerm cat p :
  matchFilter cat p && matchSearch (toLowerCase searchTerm) p = true <->
  Spec.Included searchTerm cat p.
Proof.
  unfold Spec.Included. by rewrite andb_true_iff, matchFilter_spec, matchSearch_spec.
Qed.

Lemma List_filter_Filtered (f : Prompt -> bool) (P : Prompt -> Prop) full :
  (forall r, f r = true <-> P r) -> Spec.Filtered P full (List.filter f full).
Proof.
  intros Hf. induction full as [|r full IH]; simpl; [constructor|].
  destruct (f r) eqn:Hr.
  - apply Spec.Filtered_keep; [by apply Hf|done].
  - apply Spec.Filtered_drop; [|done]. rewrite <- Hf. congruence.
Qed.

Lemma Filtered_unique P full view1 view2 :
  Spec.Filtered P full view1 -> Spec.Filtered P full view2 -> view1 = view2.
Proof.
  intros H1. revert view2.
  induction H1 as [|r full view HP _ IH|r full view HP _ IH];
    intros view2 H2; inversion H2; subst; try done.
  - f_equal. by apply IH.
  - by apply IH.
Qed.

Lemma updateFiltered_prompts st : prompts (updateFiltered st) = prompts st.
Proof. reflexivity. Qed.

Lemma updateFiltered_filtered st :
  filtered (updateFiltered st) =
  List.filter
    (fun p => matchFilter (currentFilter st) p &&
              matchSearch (toLowerCase (searchTerm st)) p)
    (prompts st).
Proof. reflexivity. Qed.

Lemma updateFiltered_Filtered st :
  Spec.Filtered (Spec.Included (searchTerm st) (currentFilter st))
                (prompts st) (filtered (updateFiltered st)).
Proof.
  rewrite updateFiltered_filtered. apply List_filter_Filtered.
  intros r. apply matches_Included.
Qed.

Lemma updateFiltered_elem_of st r :
  r ∈ filtered (updateFiltered st) <->
  r ∈ prompts st /\ Spec.Included (searchTerm st) (currentFilter st) r.
Proof.
  by rewrite updateFiltered_filtered, List_filter_elem_of, matches_Included.
Qed.

Lemma updateFiltered_sublist st :
  filtered (updateFiltered st) `sublist_of` prompts st.
Proof. rewrite updateFiltered_filtered. apply List_filter_sublist. Qed.

Lemma updateFiltered_idempotent st :
  updateFiltered (updateFiltered st) = updateFiltered st.
Proof. reflexivity. Qed.

(** The end-to-end scenario of the specification, and a search that differs
    from the title in case only. *)
Example scenario_admin :
  filtered (setFilter "admin" (init [Sample.recordX])) = [Sample.recordX].
Proof. reflexivity. Qed.

Example scenario_copywriting :
  filtered (setFilter "copywriting" (init [Sample.recordX])) = [].
Proof. reflexivity. Qed.

Example scenario_search :
  filtered (onSearch "INTRO" (init [Sample.recordA; Sample.recordB])) =
  [Sample.recordA].
Proof. reflexivity. Qed.

End FilterFacts.


(** ** Saving a new record *)

Section SaveFacts.

(** The presence check of [savePrompt], as a property of the form. *)
Lemma presence_check st :
  falsy (newTitle st) || falsy (newPromptText st) || falsy (newUse st) = true <->
  newTitle st = "" \/ newPromptText st = "" \/ newUse st = "".
Proof. rewrite !orb_true_iff, !falsy_true. tauto. Qed.

Lemma presence_check_passes st :
  newTitle st <> "" -> newPromptText st <> "" -> newUse st <> "" ->
  falsy (newTitle st) || falsy (newPromptText st) || falsy (newUse st) = false.
Proof.
  intros H1 H2 H3.
  destruct (_ || _) eqn:H; [|done]. apply presence_check in H. tauto.
Qed.

Lemma V1_savePrompt_await st :
  newTitle st <> "" -> newPromptText st <> "" -> newUse st <> "" ->
  V1.savePrompt st =
  Await st []
    (Insert {| row_title := newTitle st; row_prompt := newPromptText st;
               row_use := newUse st; row_tags := tagsOf (newTagsInput st) |})
    (V1.savePrompt_resume (tagsOf (newTagsInput st))).
Proof. intros. unfold V1.savePrompt. by rewrite presence_check_passes. Qed.

Lemma V2_savePrompt_await st :
  newTitle st <> "" -> newPromptText st <> "" -> newUse st <> "" ->
  V2.savePrompt st =
  Await st []
    (InsertSelectSingle
       {| row_title := newTitle st; row_prompt := newPromptText st;
          row_use := newUse st; row_tags := tagsOf (newTagsInput st) |})
    (V2.savePrompt_resume (tagsOf (newTagsInput st))).
Proof. intros. unfold V2.savePrompt. by rewrite presence_check_passes. Qed.

(** White space counts as filled in: the three fields are not trimmed. *)
Example savePrompt_accepts_blank_title :
  stateOf (V2.savePrompt (set_newTitle " " Sample.filledForm)) =
    set_newTitle " " Sample.filledForm /\
  exists req k, V2.savePrompt (set_newTitle " " Sample.filledForm) =
                Await (set_newTitle " " Sample.filledForm) [] req k.
Proof. split; [done|]. by eexists _, _. Qed.

(** Every handler of the second revision leaves the record set alone or puts
    one record in front of it. *)
Lemma V2_handle_prompts ev st :
  prompts (V2.handle ev st) = prompts st \/
  exists r, prompts (V2.handle ev st) = r :: prompts st.
Proof.
  destruct ev as [b|v|cat| | |v|v|v|v| |tags res clk|p|i outcome clk|i];
    simpl; try (by left).
  - unfold V2.savePrompt. destruct (_ || _); by left.
  - unfold V2.savePrompt_resume.
    destruct (error res); [by left|]. destruct (data res); right; by eexists.
  - unfold V2.copyPrompt.
    destruct (negb _); [by left|]. destruct (falsy _); by left.
  - destruct outcome; by left.
  - unfold V2.revertCopied. destruct (copiedPromptId st) as [c|]; [|by left].
    destruct (c =? i); by left.
Qed.

Lemma V1_handle_prompts ev st :
  prompts (V1Events.handle ev st) = prompts st \/
  exists r, prompts (V1Events.handle ev st) = r :: prompts st.
Proof.
  destruct ev as [v|cat| | |v|v|v|v| |tags err clk]; simpl; try (by left).
  - unfold V1.savePrompt. destruct (_ || _); by left.
  - destruct err; [by left|]. right; by eexists.
Qed.

Lemma V2_run_prompts evs st : prompts st `suffix_of` prompts (V2.run evs st).
Proof.
  revert st. induction evs as [|ev evs IH]; intros st; [done|].
  change (V2.run (ev :: evs) st) with (V2.run evs (V2.handle ev st)).
  etrans; [|apply IH].
  destruct (V2_handle_prompts ev st) as [->|[r ->]]; [done|apply suffix_cons_r; done].
Qed.

Lemma V1_run_prompts evs st : prompts st `suffix_of` prompts (V1Events.run evs st).
Proof.
  revert st. induction evs as [|ev evs IH]; intros st; [done|].
  change (V1Events.run (ev :: evs) st)
    with (V1Events.run evs (V1Events.handle ev st)).
  etrans; [|apply IH].
  destruct (V1_handle_prompts ev st) as [->|[r ->]]; [done|apply suffix_cons_r; done].
Qed.

End SaveFacts.

(** ** Copying a record's text *)

Section CopyFacts.

Lemma V2_copyPrompt_await textToCopy i st :
  clipboardSupported st = true -> textToCopy <> "" ->
  V2.copyPrompt textToCopy i st =
  Await (set_copiedPromptId None (set_copyError "" st)) []
    (ClipboardWriteText textToCopy) (V2.copyPrompt_resume i).
Proof.
  intros Hs Ht. unfold V2.copyPrompt. rewrite Hs. simpl.
  apply falsy_false in Ht. by rewrite Ht.
Qed.


Lemma revertCopied_same i st :
  copiedPromptId st = Some i -> copiedPromptId (V2.revertCopied i st) = None.
Proof. unfold V2.revertCopied. intros ->. by rewrite Z.eqb_refl. Qed.

Lemma showsCopied_spec st r :
  V2.showsCopied st r = true <-> copiedPromptId st = Some (id r).
Proof.
  unfold V2.showsCopied. destruct (copiedPromptId st) as [c|]; [|done].
  rewrite Z.eqb_eq. split; congruence.
Qed.

(** The capability flag is written when the page mounts and by nothing else. *)
Lemma V2_handle_clipboardSupported ev st :
  (forall b, ev <> V2.Mounted b) ->
  clipboardSupported (V2.handle ev st) = clipboardSupported st.
Proof.
  intros Hev.
  destruct ev as [b|v|cat| | |v|v|v|v| |tags res clk|p|i outcome clk|i];
    simpl; try done.
  - by destruct (Hev b).
  - unfold V2.savePrompt. by destruct (_ || _).
  - unfold V2.savePrompt_resume.
    destruct (error res); [done|]. by destruct (data res).
  - unfold V2.copyPrompt.
    destruct (negb _); [done|]. by destruct (falsy _).
  - by destruct outcome.
  - unfold V2.revertCopied. destruct (copiedPromptId st) as [c|]; [|done].
    by destruct (c =? i).
Qed.



End CopyFacts.


(** * The claims of the specification *)

(** C1.  Whatever the record set, the search term and the category filter,
    the recomputed view is exactly the part of the record set that the
    inclusion rule of the specification selects: the category is [all] or
    one of the record's tags, and the term is empty or its lower-cased form
    occurs in the lower-cased title, prompt text or use.  The same holds
    when the recomputation is reached through the search box or a filter
    button. *)
Theorem updateFiltered_exact (st : State) :
  Spec.Filtered (Spec.Included (searchTerm st) (currentFilter st))
                (prompts st) (filtered (updateFiltered st)) /\
  (forall view,
     Spec.Filtered (Spec.Included (searchTerm st) (currentFilter st))
                   (prompts st) view ->
     view = filtered (updateFiltered st)) /\
  (forall r, r ∈ filtered (updateFiltered st) <->
             r ∈ prompts st /\
             Spec.Included (searchTerm st) (currentFilter st) r) /\
  (forall value,
     Spec.Filtered (Spec.Included value (currentFilter st))
                   (prompts st) (filtered (onSearch value st))) /\
  (forall cat,
     Spec.Filtered (Spec.Included (searchTerm st) cat)
                   (prompts st) (filtered (setFilter cat st))).
Proof.
  split; [apply updateFiltered_Filtered|].
  split.
  { intros view Hview.
    exact (Filtered_unique _ _ _ _ Hview (updateFiltered_Filtered st)). }
  split; [apply updateFiltered_elem_of|].
  split.
  - intros value. exact (updateFiltered_Filtered (set_searchTerm value st)).
  - intros cat. exact (updateFiltered_Filtered (set_currentFilter cat st)).
Qed.

(** C5.  The tags of a new record are the comma-separated segments of the raw
    input, each trimmed, the empty ones dropped, cut to the first three in
    order; nothing else fits that description; there are never more than
    three; and the input [a, b, c, d] gives [a], [b], [c].  These are the
    tags of the row that either revision hands to the store. *)
Theorem tagsOf_spec (raw : string) :
  Spec.Tags raw (tagsOf raw) /\
  (forall result, Spec.Tags raw result -> result = tagsOf raw) /\
  tagsOf raw = take 3 (filter (fun t => t <> "") (trim <$> split "," raw)) /\
  (length (tagsOf raw) <= 3)%nat /\
  tagsOf "a, b, c, d" = ["a"; "b"; "c"] /\
  (forall st st' out req k,
     newTagsInput st = raw -> V1.savePrompt st = Await st' out req k ->
     exists row, req = Insert row /\ row_tags row = tagsOf raw) /\
  (forall st st' out req k,
     newTagsInput st = raw -> V2.savePrompt st = Await st' out req k ->
     exists row, req = InsertSelectSingle row /\ row_tags row = tagsOf raw) /\
  snd (runAsync (V2.savePrompt Sample.filledForm)
                {| data := None; error := None |} Sample.clock) =
    Some (InsertSelectSingle
            {| row_title := "T"; row_prompt := "B"; row_use := "U";
               row_tags := ["a"; "b"; "c"] |}).
Proof.
  split; [apply Tags_tagsOf|].
  split; [apply Tags_unique|].
  split; [apply tagsOf_pipeline|].
  split; [apply tagsOf_length|].
  split; [reflexivity|].
  split; [|split; [|reflexivity]].
  - intros st st' out req k <-. unfold V1.savePrompt.
    destruct (_ || _); [done|]. intros [= _ _ <- _]. by eexists.
  - intros st st' out req k <-. unfold V2.savePrompt.
    destruct (_ || _); [done|]. intros [= _ _ <- _]. by eexists.
Qed.

(** C10.  Recomputing the view does not touch the record set, nor any other
    variable than the view; and the view is a subsequence of the record set:
    the records it keeps stand in the order they have there, none twice. *)
Theorem updateFiltered_frame (st : State) :
  updateFiltered st = set_filtered (filtered (updateFiltered st)) st /\
  prompts (updateFiltered st) = prompts st /\
  filtered (updateFiltered st) `sublist_of` prompts st /\
  (forall value, prompts (onSearch value st) = prompts st /\
                 filtered (onSearch value st) `sublist_of` prompts st) /\
  (forall cat, prompts (setFilter cat st) = prompts st /\
               filtered (setFilter cat st) `sublist_of` prompts st).
Proof.
  split; [reflexivity|]. split; [reflexivity|].
  split; [apply updateFiltered_sublist|].
  split.
  - intros value. split; [reflexivity|].
    exact (updateFiltered_sublist (set_searchTerm value st)).
  - intros cat. split; [reflexivity|].
    exact (updateFiltered_sublist (set_currentFilter cat st)).
Qed.

(** C6.  When the title, the prompt text or the use is the empty string,
    saving stops at the presence check in both revisions: the only effect is
    the validation notice, no request is issued, and every variable (record
    set, view, modal flag, form fields) is as it was. *)
Theorem savePrompt_rejects_empty (st : State) :
  newTitle st = "" \/ newPromptText st = "" \/ newUse st = "" ->
  V1.savePrompt st = Return st [Alert validationMessage] /\
  V2.savePrompt st = Return st [Alert validationMessage] /\
  (forall answer clk,
     runAsync (V1.savePrompt st) answer clk = (st, [Alert validationMessage], None)) /\
  (forall answer clk,
     runAsync (V2.savePrompt st) answer clk = (st, [Alert validationMessage], None)).
Proof.
  intros H. apply presence_check in H.
  unfold V1.savePrompt, V2.savePrompt. rewrite H. done.
Qed.

Lemma savePrompt_rejects_empty_witness :
  V1.savePrompt (set_newTitle "" Sample.filledForm) =
    Return (set_newTitle "" Sample.filledForm) [Alert validationMessage] /\
  V2.savePrompt (set_newTitle "" Sample.filledForm) =
    Return (set_newTitle "" Sample.filledForm) [Alert validationMessage].
Proof.
  destruct (savePrompt_rejects_empty (set_newTitle "" Sample.filledForm))
    as (H1 & H2 & _).
  - left. reflexivity.
  - split; [exact H1|exact H2].
Defined.

(** C8.  Where the clipboard cannot be written, copying shows the notice and
    returns: no request is issued and no variable changes, the copied id and
    the copy error among them. *)
Theorem copyPrompt_unsupported (textToCopy : string) (i : Z) (st : State) :
  clipboardSupported st = false ->
  V2.copyPrompt textToCopy i st = Return st [Alert V2.clipboardNotice] /\
  copiedPromptId (stateOf (V2.copyPrompt textToCopy i st)) = copiedPromptId st /\
  copyError (stateOf (V2.copyPrompt textToCopy i st)) = copyError st /\
  (forall p, V2.handle (V2.CopyClicked p) st = st).
Proof.
  intros H.
  assert (forall t j, V2.copyPrompt t j st = Return st [Alert V2.clipboardNotice])
    as Hcopy.
  { intros t j. unfold V2.copyPrompt. by rewrite H. }
  split; [apply Hcopy|]. rewrite Hcopy. simpl.
  split; [done|]. split; [done|]. intros p. by rewrite Hcopy.
Qed.

Lemma copyPrompt_unsupported_witness :
  V2.copyPrompt (prompt Sample.recordA) (id Sample.recordA)
                (fst (V2.onMount false (init [Sample.recordA]))) =
  Return (fst (V2.onMount false (init [Sample.recordA])))
         [Alert V2.clipboardNotice].
Proof.
  apply (copyPrompt_unsupported (prompt Sample.recordA) (id Sample.recordA)
           (fst (V2.onMount false (init [Sample.recordA])))).
  reflexivity.
Defined.

(** C2, as the code has it.  In the first revision a save that passes the
    presence check asks the store to insert the row and waits.  When the
    store reports an error the handler logs it and returns: nothing is added
    and no variable changes.  Only when the store reports no error is a
    record made up on the client (id -1, the form's fields, the tags derived
    at the click, the client's time) put in front of the record set; the
    store is not asked for the row it persisted. *)
Theorem V1_savePrompt_outcomes (st : State) :
  newTitle st <> "" -> newPromptText st <> "" -> newUse st <> "" ->
  V1.savePrompt st =
    Await st []
      (Insert {| row_title := newTitle st; row_prompt := newPromptText st;
                 row_use := newUse st; row_tags := tagsOf (newTagsInput st) |})
      (V1.savePrompt_resume (tagsOf (newTagsInput st))) /\
  (forall e clk st',
     V1.savePrompt_resume (tagsOf (newTagsInput st)) (Some e) clk st' =
     (st', [ConsoleError "Error saving prompt:" (message e)])) /\
  (forall clk st',
     prompts (fst (V1.savePrompt_resume (tagsOf (newTagsInput st)) None clk st')) =
     {| id := -1; title := newTitle st'; prompt := newPromptText st';
        use := newUse st'; tags := tagsOf (newTagsInput st);
        updated_at := Date_toISOString clk |} :: prompts st') /\
  (forall e clk,
     runAsync (V1.savePrompt st) (Some e) clk =
     (st, [ConsoleError "Error saving prompt:" (message e)],
      Some (Insert {| row_title := newTitle st; row_prompt := newPromptText st;
                      row_use := newUse st;
                      row_tags := tagsOf (newTagsInput st) |}))).
Proof.
  intros H1 H2 H3. rewrite V1_savePrompt_await by done.
  split; [done|]. split; [done|]. split; done.
Qed.

Lemma V1_savePrompt_outcomes_witness :
  runAsync (V1.savePrompt Sample.filledForm) (Some Sample.storeDown) Sample.clock =
  (Sample.filledForm,
   [ConsoleError "Error saving prompt:" "Failed to fetch"],
   Some (Insert {| row_title := "T"; row_prompt := "B"; row_use := "U";
                   row_tags := ["a"; "b"; "c"] |})).
Proof.
  destruct (V1_savePrompt_outcomes Sample.filledForm) as (_ & _ & _ & H).
  - discriminate.
  - discriminate.
  - discriminate.
  - exact (H Sample.storeDown Sample.clock).
Defined.

(** C2 as the specification words it fails: the store rejects the insert of
    a filled form, and the record set of the first revision is as empty as
    before; the whole state is the one of the click. *)
Lemma V1_failed_persist_adds_nothing :
  fst (fst (runAsync (V1.savePrompt Sample.filledForm)
                     (Some Sample.storeDown) Sample.clock)) = Sample.filledForm /\
  prompts (fst (fst (runAsync (V1.savePrompt Sample.filledForm)
                              (Some Sample.storeDown) Sample.clock))) = [].
Proof. split; reflexivity. Qed.

(** C4.  A creation that the store accepts puts the new record at the head of
    the record set, whatever its [updated_at], and the records that were
    there follow as they were: in the first revision the record made up on
    the client, in the second the store's row or, without one, the fallback
    record.  No handler of either revision does anything else to the record
    set: each leaves it alone or puts one record in front, so the set a run
    starts with is always the tail of the set it ends with. *)
Theorem creation_prepends (tags : list string) (clk : Clock) (st : State) :
  prompts (fst (V1.savePrompt_resume tags None clk st)) =
    {| id := -1; title := newTitle st; prompt := newPromptText st;
       use := newUse st; tags := tags;
       updated_at := Date_toISOString clk |} :: prompts st /\
  (forall row,
     prompts (fst (V2.savePrompt_resume tags
                     {| data := Some row; error := None |} clk st)) =
     row :: prompts st) /\
  prompts (fst (V2.savePrompt_resume tags
                  {| data := None; error := None |} clk st)) =
    {| id := Date_now clk; title := newTitle st; prompt := newPromptText st;
       use := newUse st; tags := tags;
       updated_at := Date_toISOString clk |} :: prompts st /\
  (forall ev, prompts (V1Events.handle ev st) = prompts st \/
              exists r, prompts (V1Events.handle ev st) = r :: prompts st) /\
  (forall ev, prompts (V2.handle ev st) = prompts st \/
              exists r, prompts (V2.handle ev st) = r :: prompts st) /\
  (forall evs, prompts st `suffix_of` prompts (V1Events.run evs st)) /\
  (forall evs, prompts st `suffix_of` prompts (V2.run evs st)).
Proof.
  split; [reflexivity|]. split; [reflexivity|]. split; [reflexivity|].
  split; [intros ev; apply V1_handle_prompts|].
  split; [intros ev; apply V2_handle_prompts|].
  split; [intros evs; apply V1_run_prompts|intros evs; apply V2_run_prompts].
Qed.

(** C9, on the code.  The filled form is saved; while the insert is
    pending the title is changed from [T] to [T2]; the store then reports
    no error and returns no row.  The row sent to the store carries the
    submitted title, the fallback record put in front of the record set
    carries the edited one: the continuation reads the three fields again,
    only the tags are those of the click. *)
Example fallback_reads_edited_form :
  let pending := stateOf (V2.savePrompt Sample.filledForm) in
  let edited := V2.handle (V2.TitleEdited "T2") pending in
  V2.savePrompt Sample.filledForm =
    Await Sample.filledForm []
      (InsertSelectSingle
         {| row_title := "T"; row_prompt := "B"; row_use := "U";
            row_tags := ["a"; "b"; "c"] |})
      (V2.savePrompt_resume ["a"; "b"; "c"]) /\
  prompts (fst (V2.savePrompt_resume ["a"; "b"; "c"]
                  {| data := None; error := None |} Sample.clock edited)) =
  [{| id := 1700000000000; title := "T2"; prompt := "B"; use := "U";
      tags := ["a"; "b"; "c"];
      updated_at := "2023-11-14T22:13:20.000Z" |}].
Proof. split; reflexivity. Qed.

(** X24.  In the second revision a save that passes the presence check asks
    the store to insert the row and to return it.  When the store reports no
    error and returns the row, that row is put in front of the record set.
    When it reports no error and returns no row, a record is made up from the
    current time as id, the submitted title, prompt text and use and the tags
    derived from the submitted input, and that record is put in front.  This
    holds for the handler run without interruption, and whenever it resumes
    with the three fields as they were submitted. *)
Theorem V2_savePrompt_success (st : State) :
  newTitle st <> "" -> newPromptText st <> "" -> newUse st <> "" ->
  let row :=
    {| row_title := newTitle st; row_prompt := newPromptText st;
       row_use := newUse st; row_tags := tagsOf (newTagsInput st) |} in
  let synthesized clk :=
    {| id := Date_now clk; title := newTitle st; prompt := newPromptText st;
       use := newUse st; tags := tagsOf (newTagsInput st);
       updated_at := Date_toISOString clk |} in
  V2.savePrompt st =
    Await st [] (InsertSelectSingle row)
      (V2.savePrompt_resume (tagsOf (newTagsInput st))) /\
  (forall persisted clk,
     runAsync (V2.savePrompt st) {| data := Some persisted; error := None |} clk =
     (closeModal (updateFiltered (set_prompts (persisted :: prompts st) st)),
      [], Some (InsertSelectSingle row))) /\
  (forall clk,
     runAsync (V2.savePrompt st) {| data := None; error := None |} clk =
     (closeModal (updateFiltered (set_prompts (synthesized clk :: prompts st) st)),
      [ConsoleWarn V2.fallbackWarning], Some (InsertSelectSingle row))) /\
  (forall clk st',
     newTitle st' = newTitle st -> newPromptText st' = newPromptText st ->
     newUse st' = newUse st ->
     (forall persisted,
        prompts (fst (V2.savePrompt_resume (tagsOf (newTagsInput st))
                        {| data := Some persisted; error := None |} clk st')) =
        persisted :: prompts st') /\
     prompts (fst (V2.savePrompt_resume (tagsOf (newTagsInput st))
                     {| data := None; error := None |} clk st')) =
     synthesized clk :: prompts st').
Proof.
  intros H1 H2 H3 row synthesized. rewrite V2_savePrompt_await by done.
  split; [done|]. split; [done|]. split; [done|].
  intros clk st' E1 E2 E3. split; [done|].
  simpl. subst synthesized. simpl. by rewrite E1, E2, E3.
Qed.

Lemma V2_savePrompt_success_witness :
  prompts (fst (fst (runAsync (V2.savePrompt Sample.filledForm)
                              {| data := None; error := None |} Sample.clock))) =
  [{| id := 1700000000000; title := "T"; prompt := "B"; use := "U";
      tags := ["a"; "b"; "c"];
      updated_at := "2023-11-14T22:13:20.000Z" |}] /\
  prompts (fst (fst (runAsync (V2.savePrompt Sample.filledForm)
                              {| data := Some Sample.recordX; error := None |}
                              Sample.clock))) =
  [Sample.recordX].
Proof.
  destruct (V2_savePrompt_success Sample.filledForm) as (_ & Hrow & Hnone & _).
  - discriminate.
  - discriminate.
  - discriminate.
  - split.
    + rewrite (Hnone Sample.clock). reflexivity.
    + rewrite (Hrow Sample.recordX Sample.clock). reflexivity.
Defined.

(** C7, on the code.  Record A is clicked, then record B before A's write
    has settled, and B's write settles first.  When A's write then resolves,
    the handler of A's copy sets the copied id to A's without looking at
    what happened since: the feedback is on A and not on B, the copy that
    came last has lost it, and B's revert, when it comes due, does not bring
    it back. *)
Example copy_settles_out_of_order :
  let crossed :=
    V2.run [V2.CopyClicked Sample.recordA; V2.CopyClicked Sample.recordB;
            V2.CopySettled (id Sample.recordB) Resolved Sample.clock;
            V2.CopySettled (id Sample.recordA) Resolved Sample.clock]
           Sample.mounted in
  V2.copyPrompt (prompt Sample.recordA) (id Sample.recordA) Sample.mounted =
    Await Sample.mounted [] (ClipboardWriteText "Write an intro")
          (V2.copyPrompt_resume 7) /\
  V2.copyPrompt (prompt Sample.recordB) (id Sample.recordB)
                (V2.handle (V2.CopyClicked Sample.recordA) Sample.mounted) =
    Await Sample.mounted [] (ClipboardWriteText "Draw a logo")
          (V2.copyPrompt_resume 8) /\
  copiedPromptId crossed = Some 7 /\
  V2.showsCopied crossed Sample.recordA = true /\
  V2.showsCopied crossed Sample.recordB = false /\
  copiedPromptId (V2.handle (V2.RevertDue 8) crossed) = Some 7.
Proof. repeat split; reflexivity. Qed.



(** C3, on the code.  Two creations through the first revision, each accepted
    by the store, starting from an empty record set: both records carry the
    id -1, so the ids of the record set are not distinct, and neither are the
    keys of the cards the page lists. *)
Example V1_two_creations_share_id :
  id <$> prompts (Sample.createV1 (Sample.createV1 (init []))) = [-1; -1] /\
  id <$> filtered (Sample.createV1 (Sample.createV1 (init []))) = [-1; -1] /\
  ~ NoDup (id <$> prompts (Sample.createV1 (Sample.createV1 (init [])))).
Proof.
  split; [reflexivity|]. split; [reflexivity|].
  change (id <$> prompts (Sample.createV1 (Sample.createV1 (init []))))
    with [-1; -1].
  intros H. apply NoDup_cons in H as [H _]. apply H. by left.
Qed.


(** * Further properties of the code *)

(** ** The view over runs of the page *)

Section ViewFacts.

Lemma List_filter_all {A} (f : A -> bool) (l : list A) :
  (forall x, x ∈ l -> f x = true) -> List.filter f l = l.
Proof.
  induction l as [|x l IH]; intros H; [done|]. simpl.
  rewrite (H x) by (by left). f_equal. apply IH. intros y Hy. apply H. by right.
Qed.

Lemma List_filter_narrows {A} (f g : A -> bool) (l : list A) :
  (forall x, f x = true -> g x = true) ->
  List.filter f l `sublist_of` List.filter g l.
Proof.
  intros Hfg. induction l as [|x l IH]; simpl; [constructor|].
  destruct (f x) eqn:Hf.
  - rewrite (Hfg x Hf). by constructor.
  - destruct (g x); [by constructor|done].
Qed.

Lemma List_filter_agree {A} (f g : A -> bool) (l : list A) :
  (forall x, f x = g x) -> List.filter f l = List.filter g l.
Proof.
  intros Hfg. induction l as [|x l IH]; simpl; [done|].
  rewrite (Hfg x), IH. done.
Qed.

Lemma matchSearch_empty p : matchSearch "" p = true.
Proof. reflexivity. Qed.

Lemma matchFilter_all p : matchFilter "all" p = true.
Proof. reflexivity. Qed.

Lemma lowerChar_idem c : lowerChar (lowerChar c) = lowerChar c.
Proof. destruct c as [[] [] [] [] [] [] [] []]; reflexivity. Qed.

Lemma toLowerCase_idem s : toLowerCase (toLowerCase s) = toLowerCase s.
Proof.
  induction s as [|c s IH]; [done|]. simpl. by rewrite lowerChar_idem, IH.
Qed.

Lemma Substring_refl s : Spec.Substring s s.
Proof. exists "", "". by rewrite app_empty_l, app_empty_r. Qed.

Lemma Substring_trans a b c :
  Spec.Substring a b -> Spec.Substring b c -> Spec.Substring a c.
Proof.
  intros (p1 & q1 & ->) (p2 & q2 & ->). exists (p2 +:+ p1), (q1 +:+ q2).
  by rewrite !app_assoc_str.
Qed.

Lemma Substring_of_empty t : Spec.Substring t "" -> t = "".
Proof.
  intros (pre & post & H). destruct pre; [|by rewrite app_cons in H].
  rewrite app_empty_l in H. destruct t; [done|by rewrite app_cons in H].
Qed.

(** A record found for a term is found for every piece of the term. *)
Lemma matchSearch_narrows t u p :
  Spec.Substring t u -> matchSearch u p = true -> matchSearch t p = true.
Proof.
  intros Htu. unfold matchSearch. rewrite !orb_true_iff, !falsy_true, !includes_spec.
  intros [[[->|H]|H]|H].
  - left; left; left. by apply Substring_of_empty.
  - left; left; right. by apply (Substring_trans _ u).
  - left; right. by apply (Substring_trans _ u).
  - right. by apply (Substring_trans _ u).
Qed.

Lemma viewCurrent_init data : Trace.viewCurrent (init data).
Proof.
  unfold Trace.viewCurrent. rewrite updateFiltered_filtered. simpl.
  symmetry. by apply List_filter_all.
Qed.

Lemma viewCurrent_updateFiltered st : Trace.viewCurrent (updateFiltered st).
Proof. reflexivity. Qed.

Lemma V2_handle_viewCurrent ev st :
  Trace.viewCurrent st -> Trace.viewCurrent (V2.handle ev st).
Proof.
  unfold Trace.viewCurrent. intros Hst.
  destruct ev as [b|v|cat| | |v|v|v|v| |tags res clk|p|i outcome clk|i];
    simpl; try done.
  - unfold V2.savePrompt. by destruct (_ || _).
  - unfold V2.savePrompt_resume.
    destruct (error res); [done|]. by destruct (data res).
  - unfold V2.copyPrompt.
    destruct (negb _); [done|]. by destruct (falsy _).
  - by destruct outcome.
  - unfold V2.revertCopied. destruct (copiedPromptId st) as [c|]; [|done].
    by destruct (c =? i).
Qed.

Lemma V1_handle_viewCurrent ev st :
  Trace.viewCurrent st -> Trace.viewCurrent (V1Events.handle ev st).
Proof.
  unfold Trace.viewCurrent. intros Hst.
  destruct ev as [v|cat| | |v|v|v|v| |tags err clk]; simpl; try done.
  - unfold V1.savePrompt. by destruct (_ || _).
  - by destruct err.
Qed.

Lemma V2_run_viewCurrent evs st :
  Trace.viewCurrent st -> Trace.viewCurrent (V2.run evs st).
Proof.
  revert st. induction evs as [|ev evs IH]; intros st Hst; [done|].
  change (V2.run (ev :: evs) st) with (V2.run evs (V2.handle ev st)).
  by apply IH, V2_handle_viewCurrent.
Qed.

Lemma V1_run_viewCurrent evs st :
  Trace.viewCurrent st -> Trace.viewCurrent (V1Events.run evs st).
Proof.
  revert st. induction evs as [|ev evs IH]; intros st Hst; [done|].
  change (V1Events.run (ev :: evs) st)
    with (V1Events.run evs (V1Events.handle ev st)).
  by apply IH, V1_handle_viewCurrent.
Qed.

Lemma viewCurrent_Filtered st :
  Trace.viewCurrent st ->
  Spec.Filtered (Spec.Included (searchTerm st) (currentFilter st))
                (prompts st) (filtered st).
Proof. intros ->. apply updateFiltered_Filtered. Qed.

Lemma viewCurrent_elem_of st r :
  Trace.viewCurrent st ->
  r ∈ filtered st <->
  r ∈ prompts st /\ Spec.Included (searchTerm st) (currentFilter st) r.
Proof. intros ->. apply updateFiltered_elem_of. Qed.

End ViewFacts.

(** X1.  From the moment the page is created, after any events in any order
    (searches, filter clicks, edits of the form, saves and their settling,
    copies, timers), the view on display is the one the inclusion rule
    selects from the current record set under the current search term and
    category: no handler changes the record set, the term or the category
    without recomputing the view. *)
Theorem view_always_current (data_prompts : list Prompt) :
  (forall evs,
     let s := V1Events.run evs (init data_prompts) in
     Trace.viewCurrent s /\
     Spec.Filtered (Spec.Included (searchTerm s) (currentFilter s))
                   (prompts s) (filtered s)) /\
  (forall evs,
     let s := V2.run evs (init data_prompts) in
     Trace.viewCurrent s /\
     Spec.Filtered (Spec.Included (searchTerm s) (currentFilter s))
                   (prompts s) (filtered s)).
Proof.
  split; intros evs s.
  - assert (Trace.viewCurrent s) as H
      by apply V1_run_viewCurrent, viewCurrent_init.
    split; [done|by apply viewCurrent_Filtered].
  - assert (Trace.viewCurrent s) as H
      by apply V2_run_viewCurrent, viewCurrent_init.
    split; [done|by apply viewCurrent_Filtered].
Qed.

(** X2.  With the category [all] and an empty search box the view is the
    whole record set, in its order, whichever of the two is set last. *)
Theorem no_filter_shows_all (st : State) :
  filtered (setFilter "all" (onSearch "" st)) = prompts st /\
  filtered (onSearch "" (setFilter "all" st)) = prompts st /\
  (forall data_prompts,
     filtered (updateFiltered (init data_prompts)) = data_prompts).
Proof.
  split; [|split].
  - unfold setFilter, onSearch. rewrite updateFiltered_filtered. simpl.
    by apply List_filter_all.
  - unfold setFilter, onSearch. rewrite updateFiltered_filtered. simpl.
    by apply List_filter_all.
  - intros data_prompts. rewrite updateFiltered_filtered. simpl.
    by apply List_filter_all.
Qed.

(** X3.  A search term whose lower-cased form contains the lower-cased form
    of another term never shows a record that the other term hides: its view
    is a subsequence of the other's.  And the view of any category is a
    subsequence of the view of [all]. *)
Theorem typing_narrows (st : State) (v w : string) :
  Spec.Substring (toLowerCase v) (toLowerCase w) ->
  filtered (onSearch w st) `sublist_of` filtered (onSearch v st) /\
  (forall cat,
     filtered (setFilter cat st) `sublist_of` filtered (setFilter "all" st)).
Proof.
  intros Hvw. split.
  - unfold onSearch. rewrite !updateFiltered_filtered.
    apply List_filter_narrows. intros r.
    rewrite !andb_true_iff. intros [Hcat Hs]. split; [exact Hcat|].
    exact (matchSearch_narrows _ _ r Hvw Hs).
  - intros cat. unfold setFilter. rewrite !updateFiltered_filtered. simpl.
    apply List_filter_narrows. intros r.
    intros [_ H]%andb_true_iff. exact H.
Qed.

Lemma typing_narrows_witness :
  filtered (onSearch "Intro" (init [Sample.recordA; Sample.recordB]))
    `sublist_of`
  filtered (onSearch "IN" (init [Sample.recordA; Sample.recordB])).
Proof.
  apply (typing_narrows (init [Sample.recordA; Sample.recordB]) "IN" "Intro").
  exists "", "tro". reflexivity.
Defined.

(** X4.  The search does not see the case of what is typed: two terms with
    the same lower-cased form give the same view, and so do a term and its
    lower-cased form.  The category is compared as it stands: a record
    tagged [Admin] is not in the category [admin]. *)
Theorem search_ignores_case (st : State) (v : string) :
  filtered (onSearch (toLowerCase v) st) = filtered (onSearch v st) /\
  (forall w, toLowerCase v = toLowerCase w ->
             filtered (onSearch v st) = filtered (onSearch w st)) /\
  filtered (setFilter "admin"
              (init [{| id := 1; title := "X"; prompt := "Y"; use := "Z";
                        tags := ["Admin"]; updated_at := "" |}])) = [].
Proof.
  assert (forall w, toLowerCase v = toLowerCase w ->
                    filtered (onSearch v st) = filtered (onSearch w st)) as H.
  { intros w Hw. unfold onSearch. rewrite !updateFiltered_filtered. simpl.
    by rewrite Hw. }
  split; [|split; [exact H|reflexivity]].
  symmetry. apply H. by rewrite toLowerCase_idem.
Qed.

(** ** What is on display *)

Section DisplayFacts.

Lemma renderMain_NoResults st :
  Template.renderMain st = Template.NoResults Template.noResults <->
  filtered st = [].
Proof.
  unfold Template.renderMain. destruct (filtered st) as [|r l]; simpl; [done|].
  split; discriminate.
Qed.

Lemma renderMainV1_NoResults st :
  Template.renderMainV1 st = Template.NoResults Template.noResults <->
  filtered st = [].
Proof.
  unfold Template.renderMainV1. destruct (filtered st) as [|r l]; simpl; [done|].
  split; discriminate.
Qed.

Lemma empty_view_iff st :
  Trace.viewCurrent st ->
  filtered st = [] <->
  forall r, r ∈ prompts st ->
            ~ Spec.Included (searchTerm st) (currentFilter st) r.
Proof.
  intros Hst. split.
  - intros Hnil r Hr Hinc.
    assert (r ∈ filtered st) as Hin by (by apply viewCurrent_elem_of).
    rewrite Hnil in Hin. by apply elem_of_nil in Hin.
  - intros Hnone. destruct (filtered st) as [|r l] eqn:Hf; [done|].
    assert (r ∈ filtered st) as Hin by (rewrite Hf; by left).
    apply viewCurrent_elem_of in Hin as [Hr Hinc]; [|done].
    by destruct (Hnone r Hr).
Qed.

Lemma updateFiltered_cons r st :
  filtered (updateFiltered (set_prompts (r :: prompts st) st)) =
  (if matchFilter (currentFilter st) r &&
      matchSearch (toLowerCase (searchTerm st)) r
   then [r] else []) ++ filtered (updateFiltered st).
Proof.
  rewrite !updateFiltered_filtered. simpl.
  by destruct (matchFilter _ r && matchSearch _ r).
Qed.

Lemma showsCopied_at_most_one st (l : list Prompt) :
  NoDup (id <$> l) -> (length (List.filter (V2.showsCopied st) l) <= 1)%nat.
Proof.
  induction l as [|x l IH]; intros Hnd; simpl; [lia|].
  apply NoDup_cons in Hnd as [Hx Hnd].
  destruct (V2.showsCopied st x) eqn:Hsx; [|by apply IH].
  assert (List.filter (V2.showsCopied st) l = []) as ->; [|simpl; lia].
  destruct (List.filter (V2.showsCopied st) l) as [|y l'] eqn:Hf; [done|].
  assert (y ∈ List.filter (V2.showsCopied st) l) as Hy by (rewrite Hf; by left).
  apply List_filter_elem_of in Hy as [Hy Hsy].
  destruct Hx. apply showsCopied_spec in Hsx, Hsy.
  assert (id x = id y) as -> by congruence.
  apply list_elem_of_fmap. by exists y.
Qed.

Lemma shownTags_take p : Template.shownTags p = take 3 (tags p).
Proof.
  unfold Template.shownTags. destruct (tags p) as [|t l]; [done|].
  change (0 <? length (t :: l))%nat with true. cbv iota.
  change 3 with (Z.of_nat 3). apply slice_0.
Qed.

End DisplayFacts.

(** X5.  At every moment of a run of the page, the placeholder is on display
    exactly when no record of the set passes the category and the search
    term of that moment. *)
Theorem placeholder_iff_no_match (data_prompts : list Prompt) :
  (forall evs,
     let s := V1Events.run evs (init data_prompts) in
     Template.renderMainV1 s = Template.NoResults Template.noResults <->
     forall r, r ∈ prompts s ->
               ~ Spec.Included (searchTerm s) (currentFilter s) r) /\
  (forall evs,
     let s := V2.run evs (init data_prompts) in
     Template.renderMain s = Template.NoResults Template.noResults <->
     forall r, r ∈ prompts s ->
               ~ Spec.Included (searchTerm s) (currentFilter s) r).
Proof.
  split; intros evs s.
  - rewrite renderMainV1_NoResults. apply empty_view_iff.
    apply V1_run_viewCurrent, viewCurrent_init.
  - rewrite renderMain_NoResults. apply empty_view_iff.
    apply V2_run_viewCurrent, viewCurrent_init.
Qed.

(** X6.  A record that a save puts in front of the record set heads the view
    when it passes the active category and search term, and is absent from
    the view when it does not: the rest of the view is what it was.  Either
    way the modal is closed and the term and the category stay. *)
Theorem created_record_in_view
    (tags : list string) (clk : Clock) (st : State) (row : Prompt) :
  let local :=
    {| id := -1; title := newTitle st; prompt := newPromptText st;
       use := newUse st; tags := tags; updated_at := Date_toISOString clk |} in
  let st1 := fst (V1.savePrompt_resume tags None clk st) in
  let st2 :=
    fst (V2.savePrompt_resume tags {| data := Some row; error := None |} clk st) in
  (Spec.Included (searchTerm st) (currentFilter st) local ->
   filtered st1 = local :: filtered (updateFiltered st)) /\
  (~ Spec.Included (searchTerm st) (currentFilter st) local ->
   filtered st1 = filtered (updateFiltered st)) /\
  (Spec.Included (searchTerm st) (currentFilter st) row ->
   filtered st2 = row :: filtered (updateFiltered st)) /\
  (~ Spec.Included (searchTerm st) (currentFilter st) row ->
   filtered st2 = filtered (updateFiltered st)) /\
  (Trace.viewCurrent st ->
   ~ Spec.Included (searchTerm st) (currentFilter st) row ->
   filtered st2 = filtered st /\ prompts st2 = row :: prompts st) /\
  showModal st1 = false /\ showModal st2 = false /\
  searchTerm st2 = searchTerm st /\ currentFilter st2 = currentFilter st.
Proof.
  intros local st1 st2.
  assert (forall r, filtered (closeModal (updateFiltered
                      (set_prompts (r :: prompts st) st))) =
                    (if matchFilter (currentFilter st) r &&
                        matchSearch (toLowerCase (searchTerm st)) r
                     then [r] else []) ++ filtered (updateFiltered st)) as Hcons.
  { intros r. apply updateFiltered_cons. }
  assert (forall r, Spec.Included (searchTerm st) (currentFilter st) r ->
            matchFilter (currentFilter st) r &&
            matchSearch (toLowerCase (searchTerm st)) r = true) as Hyes.
  { intros r. apply matches_Included. }
  assert (forall r, ~ Spec.Included (searchTerm st) (currentFilter st) r ->
            matchFilter (currentFilter st) r &&
            matchSearch (toLowerCase (searchTerm st)) r = false) as Hno.
  { intros r Hr. destruct (_ && _) eqn:E; [|done].
    by apply matches_Included in E. }
  change (filtered st1)
    with (filtered (closeModal (updateFiltered
                      (set_prompts (local :: prompts st) st)))).
  change (filtered st2)
    with (filtered (closeModal (updateFiltered
                      (set_prompts (row :: prompts st) st)))).
  rewrite !Hcons.
  split. { intros H. by rewrite Hyes. }
  split. { intros H. by rewrite Hno. }
  split. { intros H. by rewrite Hyes. }
  split. { intros H. by rewrite Hno. }
  split.
  { intros Hcur H. split; [|done]. rewrite Hno by done.
    symmetry. exact Hcur. }
  done.
Qed.

(** X7.  When the ids of the record set are distinct, so are the keys of the
    cards on display, and at most one card of the view shows the copy
    feedback. *)
Theorem view_keys_distinct (st : State) :
  NoDup (id <$> prompts st) ->
  NoDup (id <$> filtered (updateFiltered st)) /\
  (forall cards,
     Template.renderMain (updateFiltered st) = Template.Cards cards ->
     NoDup (Template.card_key <$> cards)) /\
  (length (List.filter (V2.showsCopied (updateFiltered st))
                       (filtered (updateFiltered st))) <= 1)%nat.
Proof.
  intros Hnd.
  assert (NoDup (id <$> filtered (updateFiltered st))) as Hview.
  { apply (sublist_NoDup _ (id <$> prompts st)); [exact Hnd|].
    apply fmap_sublist, updateFiltered_sublist. }
  split; [exact Hview|]. split.
  - intros cards. unfold Template.renderMain.
    destruct (length _ =? 0)%nat; [done|]. intros [= <-].
    rewrite <- list_fmap_compose. exact Hview.
  - by apply showsCopied_at_most_one.
Qed.

Lemma view_keys_distinct_witness :
  NoDup (id <$> filtered (updateFiltered Sample.mounted)).
Proof.
  apply (view_keys_distinct Sample.mounted).
  change (NoDup [7; 8]).
  apply NoDup_cons. split.
  - intros H. apply list_elem_of_singleton in H. discriminate.
  - apply NoDup_singleton.
Defined.

(** X8.  A card shows the first three tags of its record, in order, and no
    more; a record whose tags come from the form shows all of them. *)
Theorem shown_tags (p : Prompt) :
  Template.shownTags p = take 3 (tags p) /\
  (length (Template.shownTags p) <= 3)%nat /\
  Template.shownTags p `prefix_of` tags p /\
  (forall raw, Template.shownTags
                 {| id := id p; title := title p; prompt := prompt p;
                    use := use p; tags := tagsOf raw;
                    updated_at := updated_at p |} = tagsOf raw).
Proof.
  split; [apply shownTags_take|]. rewrite shownTags_take.
  split; [rewrite length_take; lia|]. split; [apply prefix_take|].
  intros raw. rewrite shownTags_take. simpl.
  apply take_ge, tagsOf_length.
Qed.

(** ** More on the tags of a new record *)

Section MoreTagFacts.

Lemma Substring_cons c t s : Spec.Substring t s -> Spec.Substring t (String c s).
Proof. intros (pre & post & ->). by exists (String c pre), post. Qed.

(** The first segment of [split] starts the string. *)
Lemma split_head_prefix sep s seg rest :
  split sep s = seg :: rest -> exists post, s = seg +:+ post.
Proof.
  revert seg rest. induction s as [|c s IH]; intros seg rest; simpl.
  - intros [= <- _]. by exists "".
  - destruct (Ascii.eqb_spec c sep) as [->|Hc].
    + intros [= <- _]. by exists (String sep s).
    + destruct (split sep s) as [|seg0 rest0] eqn:Hs.
      * intros [= <- _]. exists s. by rewrite app_cons, app_empty_l.
      * intros [= <- _]. destruct (IH seg0 rest0 eq_refl) as [post ->].
        by exists post.
Qed.

(** Each segment of [split] is a piece of the string. *)
Lemma split_Substring sep s seg : seg ∈ split sep s -> Spec.Substring seg s.
Proof.
  revert seg. induction s as [|c s IH]; intros seg; simpl.
  - intros ->%list_elem_of_singleton. apply Substring_refl.
  - destruct (Ascii.eqb_spec c sep) as [->|Hc].
    + intros [->|H]%elem_of_cons.
      * by exists "", (String sep s).
      * by apply Substring_cons, IH.
    + destruct (split sep s) as [|seg0 rest] eqn:Hs.
      { by destruct (split_nonempty sep s). }
      intros [->|H]%elem_of_cons.
      * destruct (split_head_prefix sep s seg0 rest Hs) as [post ->].
        by exists "", post.
      * apply Substring_cons, IH. by right.
Qed.

Lemma split_app sep s t :
  split sep (s +:+ String sep t) = split sep s ++ split sep t.
Proof.
  induction s as [|c s IH].
  - rewrite app_empty_l. simpl. by rewrite Ascii.eqb_refl.
  - rewrite app_cons. simpl. rewrite IH.
    destruct (Ascii.eqb c sep); [done|].
    pose proof (split_nonempty sep s) as Hne.
    by destruct (split sep s).
Qed.

Lemma Blank_no_comma s : Spec.Blank s -> ","%char ∉ chars s.
Proof.
  unfold Spec.Blank. rewrite Forall_forall. intros H Hin.
  by specialize (H _ Hin).
Qed.

Lemma trim_Blank s : Spec.Blank s -> trim s = "".
Proof.
  intros Hs. unfold trim.
  rewrite <- (app_empty_r s), trimStart_Blank by done. done.
Qed.

Lemma trim_Tight t : Spec.Tight t -> trim t = t.
Proof.
  intros Ht. symmetry. apply Trimmed_trim. exists "", "".
  rewrite app_empty_l, app_empty_r. repeat split; [apply Blank_empty..|done].
Qed.

Lemma trim_Substring s : Spec.Substring (trim s) s.
Proof. destruct (trim_Trimmed s) as (l & r & Hs & _). by exists l, r. Qed.

Lemma Substring_chars t s c : Spec.Substring t s -> c ∈ chars t -> c ∈ chars s.
Proof.
  intros (pre & post & ->) Hc. rewrite !chars_app, !elem_of_app. auto.
Qed.

(** What [tagsOf] lets through. *)
Lemma tagsOf_elem_of raw t :
  t ∈ tagsOf raw -> exists seg, seg ∈ split "," raw /\ t = trim seg /\ t <> "".
Proof.
  rewrite tagsOf_pipeline. intros Ht.
  apply (sublist_subseteq _ _ (sublist_take _ _)) in Ht.
  apply list_elem_of_filter in Ht as [Hne Ht].
  apply list_elem_of_fmap in Ht as (seg & -> & Hseg). by exists seg.
Qed.

Lemma filter_all_true {A} (P : A -> Prop) `{!forall x, Decision (P x)} l :
  Forall P l -> filter P l = l.
Proof.
  induction 1 as [|x l Hx _ IH]; [done|].
  by rewrite filter_cons_True, IH.
Qed.

Lemma fmap_fixed {A} (f : A -> A) l :
  Forall (fun x => f x = x) l -> f <$> l = l.
Proof. induction 1 as [|x l Hx _ IH]; [done|]. by rewrite fmap_cons, Hx, IH. Qed.

Lemma tagsOf_wellformed raw :
  Forall (fun t => t <> "" /\ (","%char ∉ chars t) /\ Spec.Tight t /\
                   trim t = t /\ Spec.Substring t raw) (tagsOf raw).
Proof.
  apply Forall_forall. intros t (seg & Hseg & -> & Hne)%tagsOf_elem_of.
  assert (Spec.Tight (trim seg)) as Ht.
  { by destruct (trim_Trimmed seg) as (l & r & _ & _ & _ & ?). }
  split; [done|]. split; [|split; [done|split]].
  - intros Hc. apply (Substring_chars _ seg) in Hc; [|apply trim_Substring].
    pose proof (split_no_sep "," raw) as Hall.
    rewrite Forall_forall in Hall. by apply (Hall seg).
  - by apply trim_Tight.
  - eapply Substring_trans; [apply trim_Substring|by apply (split_Substring ","%char)].
Qed.

End MoreTagFacts.

(** X9.  Every tag of a new record is a piece of what was typed in the tags
    field; it is not empty, holds no comma, and has no white space at either
    end, so trimming it again changes nothing. *)
Theorem tags_wellformed (raw : string) :
  Forall (fun t => t <> "" /\ (","%char ∉ chars t) /\ Spec.Tight t /\
                   trim t = t /\ Spec.Substring t raw) (tagsOf raw).
Proof. apply tagsOf_wellformed. Qed.

(** X10.  Writing the tags of a record back into the tags field, separated by
    commas, and deriving the tags again gives the same tags. *)
Theorem tags_roundtrip (raw : string) :
  tagsOf (join "," (tagsOf raw)) = tagsOf raw.
Proof.
  pose proof (tagsOf_wellformed raw) as Hwf.
  pose proof (tagsOf_length raw) as Hlen.
  destruct (tagsOf raw) as [|t ts] eqn:Htags; [reflexivity|].
  rewrite tagsOf_pipeline. rewrite split_join.
  - rewrite fmap_fixed.
    + rewrite filter_all_true; [by apply take_ge|].
      eapply Forall_impl; [exact Hwf|]. by intros x (? & _).
    + eapply Forall_impl; [exact Hwf|]. by intros x (_ & _ & _ & ? & _).
  - done.
  - eapply Forall_impl; [exact Hwf|]. by intros x (_ & ? & _).
Qed.

(** X11.  A comma in front of the input or behind it changes nothing, and an
    input of white space alone, the empty input included, gives no tag. *)
Theorem tags_ignore_stray_separators (raw : string) :
  tagsOf ("," +:+ raw) = tagsOf raw /\
  tagsOf (raw +:+ ",") = tagsOf raw /\
  (Spec.Blank raw -> tagsOf raw = []) /\
  tagsOf "" = [].
Proof.
  split; [|split; [|split; [|reflexivity]]].
  - rewrite !tagsOf_pipeline. rewrite app_cons, app_empty_l. simpl.
    by rewrite filter_cons_False by (by intros ?).
  - rewrite !tagsOf_pipeline. rewrite split_app, fmap_app, filter_app. simpl.
    rewrite filter_cons_False by (by intros ?).
    by rewrite filter_nil, app_nil_r.
  - intros Hb. rewrite tagsOf_pipeline.
    rewrite split_single by (by apply Blank_no_comma). simpl.
    rewrite trim_Blank by done. by rewrite filter_cons_False by (by intros ?).
Qed.

(** ** The modal and the save *)

Section ModalFacts.

Lemma V2_handle_showModal ev st :
  showModal st = true -> Trace.closesModal ev = false ->
  showModal (V2.handle ev st) = true.
Proof.
  intros Hst Hev.
  destruct ev as [b|v|cat| | |v|v|v|v| |tags res clk|p|i outcome clk|i];
    simpl in *; try done.
  - unfold V2.savePrompt. by destruct (_ || _).
  - unfold V2.savePrompt_resume. by destruct (error res).
  - unfold V2.copyPrompt.
    destruct (negb _); [done|]. by destruct (falsy _).
  - by destruct outcome.
  - unfold V2.revertCopied. destruct (copiedPromptId st) as [c|]; [|done].
    by destruct (c =? i).
Qed.

End ModalFacts.

(** X12.  A form that has just been opened cannot be saved: opening clears
    the four fields, so either revision stops at the presence check.
    Dismissing the modal (cancel, the Escape key, a click on the backdrop
    itself) only hides it: the typed fields, the record set and the view
    stay, and the fields are cleared when the modal is opened next.  Other
    keys, and clicks inside the modal, do nothing. *)
Theorem fresh_modal_cannot_save (st : State) :
  V1.savePrompt (openModal st) =
    Return (openModal st) [Alert validationMessage] /\
  V2.savePrompt (openModal st) =
    Return (openModal st) [Alert validationMessage] /\
  closeModal st = set_showModal false st /\
  openModal (closeModal st) = openModal st /\
  (newTitle (openModal st), newPromptText (openModal st),
   newUse (openModal st), newTagsInput (openModal st)) = ("", "", "", "") /\
  (prompts (openModal st), filtered (openModal st)) = (prompts st, filtered st) /\
  Template.onBackdropKeydown "Escape" st = closeModal st /\
  (forall key, key <> "Escape" -> Template.onBackdropKeydown key st = st) /\
  Template.onBackdropClick true st = closeModal st /\
  Template.onBackdropClick false st = st.
Proof.
  repeat (split; [reflexivity|]). split; [|done].
  intros key Hkey. unfold Template.onBackdropKeydown.
  by destruct (String.eqb_spec key "Escape").
Qed.

(** X13.  Once open, the modal stays open through every event except a
    dismissal and a save that the store accepted.  In particular a save that
    the store of the second revision rejects leaves every variable as it is,
    the form included, and tells the user the store's message, also when the
    answer carries a row beside the error. *)
Theorem modal_stays_open (evs : list V2.Event) (st : State) :
  showModal st = true ->
  forallb (fun ev => negb (Trace.closesModal ev)) evs = true ->
  showModal (V2.run evs st) = true /\
  (forall tags row e clk,
     V2.savePrompt_resume tags {| data := row; error := Some e |} clk st =
     (st, [ConsoleError "Error saving prompt:" (message e);
           Alert ("Error saving prompt: " +:+ message e)])).
Proof.
  intros Hst Hevs. split; [|done].
  revert st Hst. induction evs as [|ev evs IH]; intros st Hst; [done|].
  simpl in Hevs. apply andb_true_iff in Hevs as [Hev Hevs].
  apply negb_true_iff in Hev.
  change (V2.run (ev :: evs) st) with (V2.run evs (V2.handle ev st)).
  apply IH; [done|]. by apply V2_handle_showModal.
Qed.

Lemma modal_stays_open_witness :
  showModal
    (V2.run [V2.TitleEdited "T"; V2.SaveClicked;
             V2.SaveSettled [] {| data := None; error := Some Sample.storeDown |}
                            Sample.clock;
             V2.SearchInput "x"]
            (openModal (init [Sample.recordA]))) = true.
Proof.
  apply (modal_stays_open
           [V2.TitleEdited "T"; V2.SaveClicked;
            V2.SaveSettled [] {| data := None; error := Some Sample.storeDown |}
                           Sample.clock;
            V2.SearchInput "x"]
           (openModal (init [Sample.recordA]))).
  - reflexivity.
  - reflexivity.
Defined.

(** X14.  A pending save is not called off by dismissing the modal, and the
    record made up on the client takes title, text and use from the form as
    it is when the store answers: if the modal was dismissed and opened
    again in the meantime, the first revision puts a record with empty
    title, text and use (and the submitted tags) in front, the fallback of
    the second revision does the same, and the modal just opened is closed.
    A row returned by the store is used as it is. *)
Theorem save_reads_form_at_settle (st : State) (clk : Clock) :
  newTitle st <> "" -> newPromptText st <> "" -> newUse st <> "" ->
  let reopened := openModal (closeModal st) in
  let tags := tagsOf (newTagsInput st) in
  V1.savePrompt st =
    Await st []
      (Insert {| row_title := newTitle st; row_prompt := newPromptText st;
                 row_use := newUse st; row_tags := tags |})
      (V1.savePrompt_resume tags) /\
  prompts (fst (V1.savePrompt_resume tags None clk reopened)) =
    {| id := -1; title := ""; prompt := ""; use := ""; tags := tags;
       updated_at := Date_toISOString clk |} :: prompts st /\
  showModal (fst (V1.savePrompt_resume tags None clk reopened)) = false /\
  V2.savePrompt st =
    Await st []
      (InsertSelectSingle
         {| row_title := newTitle st; row_prompt := newPromptText st;
            row_use := newUse st; row_tags := tags |})
      (V2.savePrompt_resume tags) /\
  prompts (fst (V2.savePrompt_resume tags
                  {| data := None; error := None |} clk reopened)) =
    {| id := Date_now clk; title := ""; prompt := ""; use := ""; tags := tags;
       updated_at := Date_toISOString clk |} :: prompts st /\
  (forall row,
     prompts (fst (V2.savePrompt_resume tags
                     {| data := Some row; error := None |} clk reopened)) =
     row :: prompts st).
Proof.
  intros H1 H2 H3 reopened tags.
  rewrite V1_savePrompt_await, V2_savePrompt_await by done. done.
Qed.

Lemma save_reads_form_at_settle_witness :
  title <$> prompts
    (V1Events.run
       [V1Events.SaveClicked; V1Events.ModalDismissed; V1Events.AddClicked;
        V1Events.SaveSettled ["a"; "b"; "c"] None Sample.clock]
       Sample.filledForm) = [""].
Proof.
  destruct (save_reads_form_at_settle Sample.filledForm Sample.clock)
    as (_ & H & _).
  - discriminate.
  - discriminate.
  - discriminate.
  - change (title <$> prompts
              (fst (V1.savePrompt_resume (tagsOf (newTagsInput Sample.filledForm))
                      None Sample.clock
                      (openModal (closeModal Sample.filledForm)))) = [""]).
    rewrite H. reflexivity.
Defined.

(** ** More on copying *)

Section MoreCopyFacts.

Lemma V2_handle_copyError ev st :
  Trace.copyAction ev = false -> copyError (V2.handle ev st) = copyError st.
Proof.
  intros Hev.
  destruct ev as [b|v|cat| | |v|v|v|v| |tags res clk|p|i outcome clk|i];
    simpl in *; try done.
  - unfold V2.savePrompt. by destruct (_ || _).
  - unfold V2.savePrompt_resume.
    destruct (error res); [done|]. by destruct (data res).
  - unfold V2.revertCopied. destruct (copiedPromptId st) as [c|]; [|done].
    by destruct (c =? i).
Qed.

Lemma V2_run_copyError evs st :
  forallb (fun ev => negb (Trace.copyAction ev)) evs = true ->
  copyError (V2.run evs st) = copyError st.
Proof.
  revert st. induction evs as [|ev evs IH]; intros st Hevs; [done|].
  simpl in Hevs. apply andb_true_iff in Hevs as [Hev Hevs].
  apply negb_true_iff in Hev.
  change (V2.run (ev :: evs) st) with (V2.run evs (V2.handle ev st)).
  rewrite IH by done. by apply V2_handle_copyError.
Qed.

(** The state of a page that cannot write the clipboard and has shown
    neither feedback nor copy error. *)
Lemma V2_handle_quiet ev st :
  Trace.withoutClipboard ev = true ->
  clipboardSupported st = false /\ copiedPromptId st = None /\ copyError st = "" ->
  clipboardSupported (V2.handle ev st) = false /\
  copiedPromptId (V2.handle ev st) = None /\
  copyError (V2.handle ev st) = "".
Proof.
  intros Hev (Hs & Hc & He).
  destruct ev as [b|v|cat| | |v|v|v|v| |tags res clk|p|i outcome clk|i];
    simpl in *; try done.
  - unfold V2.savePrompt. by destruct (_ || _).
  - unfold V2.savePrompt_resume.
    destruct (error res); [done|]. by destruct (data res).
  - unfold V2.copyPrompt. by rewrite Hs.
  - unfold V2.revertCopied. by rewrite Hc.
Qed.

Lemma V2_run_quiet evs st :
  forallb Trace.withoutClipboard evs = true ->
  clipboardSupported st = false /\ copiedPromptId st = None /\ copyError st = "" ->
  clipboardSupported (V2.run evs st) = false /\
  copiedPromptId (V2.run evs st) = None /\
  copyError (V2.run evs st) = "".
Proof.
  revert st. induction evs as [|ev evs IH]; intros st Hevs Hst; [done|].
  simpl in Hevs. apply andb_true_iff in Hevs as [Hev Hevs].
  change (V2.run (ev :: evs) st) with (V2.run evs (V2.handle ev st)).
  apply IH; [done|]. by apply V2_handle_quiet.
Qed.

End MoreCopyFacts.

(** X15.  A copy asks for a clipboard write exactly when the page can write
    the clipboard and the text is not empty; the request then carries that
    text, and error and feedback have been reset before it is issued.  With
    an empty text nothing happens at all.  On a card, only the Enter key and
    the space bar copy; any other key does nothing. *)
Theorem copyPrompt_writes_iff (textToCopy : string) (i : Z) (st : State) :
  ((exists st' out req k, V2.copyPrompt textToCopy i st = Await st' out req k) <->
   clipboardSupported st = true /\ textToCopy <> "") /\
  (forall st' out req k,
     V2.copyPrompt textToCopy i st = Await st' out req k ->
     req = ClipboardWriteText textToCopy /\ out = [] /\
     st' = set_copiedPromptId None (set_copyError "" st)) /\
  (clipboardSupported st = true -> V2.copyPrompt "" i st = Return st []) /\
  (forall p, Template.onCardKeydown "Enter" p st =
             V2.copyPrompt (prompt p) (id p) st) /\
  (forall p, Template.onCardKeydown " " p st =
             V2.copyPrompt (prompt p) (id p) st) /\
  (forall key p, key <> "Enter" -> key <> " " ->
                 Template.onCardKeydown key p st = Return st []).
Proof.
  split; [|split; [|split; [|split; [done|split; [done|]]]]].
  - split.
    + intros (st' & out & req & k & H). unfold V2.copyPrompt in H.
      destruct (clipboardSupported st); [|done]. simpl in H.
      destruct textToCopy; done.
    + intros [Hs Ht]. rewrite V2_copyPrompt_await by done. by eexists _, _, _, _.
  - intros st' out req k. unfold V2.copyPrompt.
    destruct (negb _); [done|]. destruct (falsy _); [done|].
    by intros [= <- <- <- _].
  - intros Hs. unfold V2.copyPrompt. by rewrite Hs.
  - intros key p H1 H2. unfold Template.onCardKeydown.
    destruct (String.eqb_spec key "Enter"); [done|].
    by destruct (String.eqb_spec key " ").
Qed.

(** X16.  When a clipboard write is rejected, whatever happened while it was
    pending, the copy error is set, no timer is started, and the feedback is
    left as it is: the rejected copy puts no feedback on its record, and the
    feedback of another copy that resolved in the meantime stays beside the
    error.  After a click followed at once by its rejection no record shows
    the feedback.  The error stays on display through every later event
    until the next copy action. *)
Theorem copy_rejected (i : Z) (err : string) (clk : Clock) (st : State) :
  let failed := V2.handle (V2.CopySettled i (Rejected err) clk) st in
  V2.copyPrompt_resume i (Rejected err) clk st =
    (set_copyError V2.copyFailure st,
     [ConsoleError "Failed to copy text: " err]) /\
  copyError failed = V2.copyFailure /\
  copiedPromptId failed = copiedPromptId st /\
  (forall r, V2.showsCopied failed r = V2.showsCopied st r) /\
  (forall evs,
     forallb (fun ev => negb (Trace.copyAction ev)) evs = true ->
     copyError (V2.run evs failed) = V2.copyFailure /\
     Template.copyErrorNotice (V2.run evs failed) = Some V2.copyFailure) /\
  (forall p,
     clipboardSupported st = true -> prompt p <> "" ->
     let direct :=
       V2.run [V2.CopyClicked p; V2.CopySettled (id p) (Rejected err) clk] st in
     copyError direct = V2.copyFailure /\ copiedPromptId direct = None /\
     forall r, V2.showsCopied direct r = false) /\
  (forall A B clkB,
     clipboardSupported st = true -> prompt A <> "" -> prompt B <> "" ->
     let crossed :=
       V2.run [V2.CopyClicked A; V2.CopyClicked B;
               V2.CopySettled (id B) Resolved clkB;
               V2.CopySettled (id A) (Rejected err) clk] st in
     copyError crossed = V2.copyFailure /\
     copiedPromptId crossed = Some (id B) /\
     V2.showsCopied crossed B = true).
Proof.
  intros failed. split; [done|]. split; [done|]. split; [done|].
  split; [done|]. split; [|split].
  - intros evs Hevs. unfold Template.copyErrorNotice.
    by rewrite V2_run_copyError.
  - intros p Hs Hp direct.
    assert (direct = set_copyError V2.copyFailure
                       (set_copiedPromptId None (set_copyError "" st))) as ->.
    { subst direct. unfold V2.run. simpl. by rewrite V2_copyPrompt_await. }
    done.
  - intros A B clkB Hs HA HB crossed.
    assert (crossed =
            set_copyError V2.copyFailure
              (set_copiedPromptId (Some (id B))
                 (set_copiedPromptId None
                    (set_copyError ""
                       (set_copiedPromptId None (set_copyError "" st)))))) as ->.
    { subst crossed. unfold V2.run. simpl.
      rewrite (V2_copyPrompt_await (prompt A)) by done. simpl.
      by rewrite V2_copyPrompt_await. }
    split; [done|]. split; [done|].
    unfold V2.showsCopied. simpl. apply Z.eqb_refl.
Qed.

(** X17.  The three steps of a copy (the click, the settling of the write,
    the revert) never touch the record set, the view, the search term, the
    category, the modal or the form. *)
Theorem copy_leaves_catalog_alone (ev : V2.Event) (st : State) :
  Trace.copyEvent ev = true ->
  let st' := V2.handle ev st in
  prompts st' = prompts st /\ filtered st' = filtered st /\
  searchTerm st' = searchTerm st /\ currentFilter st' = currentFilter st /\
  showModal st' = showModal st /\ newTitle st' = newTitle st /\
  newPromptText st' = newPromptText st /\ newUse st' = newUse st /\
  newTagsInput st' = newTagsInput st /\
  clipboardSupported st' = clipboardSupported st.
Proof.
  intros Hev st'. subst st'.
  destruct ev as [b|v|cat| | |v|v|v|v| |tags res clk|p|i outcome clk|i];
    simpl in *; try done.
  - unfold V2.copyPrompt.
    destruct (negb _); [done|]. by destruct (falsy _).
  - by destruct outcome.
  - unfold V2.revertCopied. destruct (copiedPromptId st) as [c|]; [|done].
    by destruct (c =? i).
Qed.

Lemma copy_leaves_catalog_alone_witness :
  filtered (V2.handle (V2.CopyClicked Sample.recordA) Sample.mounted) =
  filtered Sample.mounted.
Proof.
  destruct (copy_leaves_catalog_alone (V2.CopyClicked Sample.recordA)
              Sample.mounted) as (_ & H & _).
  - reflexivity.
  - exact H.
Defined.

(** X18.  A copy that succeeds and whose revert comes due undisturbed leaves
    the page as it was before the click, with the copy error cleared and no
    feedback on display. *)
Theorem copy_cycle (p : Prompt) (clk : Clock) (st : State) :
  clipboardSupported st = true -> prompt p <> "" ->
  V2.run [V2.CopyClicked p; V2.CopySettled (id p) Resolved clk;
          V2.RevertDue (id p)] st =
  set_copiedPromptId None (set_copyError "" st).
Proof.
  intros Hs Ht. unfold V2.run. simpl. rewrite V2_copyPrompt_await by done.
  simpl. unfold V2.revertCopied. simpl. by rewrite Z.eqb_refl.
Qed.

Lemma copy_cycle_witness :
  V2.run [V2.CopyClicked Sample.recordA;
          V2.CopySettled 7 Resolved Sample.clock; V2.RevertDue 7]
         Sample.mounted = Sample.mounted.
Proof.
  refine (eq_trans (copy_cycle Sample.recordA Sample.clock Sample.mounted _ _) _).
  - reflexivity.
  - discriminate.
  - reflexivity.
Defined.

(** X19.  The timer of a copy is not called off by a later copy.  When a
    record is copied twice (or two records share an id), the revert of the
    first copy takes the feedback of the second away when it comes due, and
    the revert of the second then finds nothing to do. *)
Theorem recopy_reverts_early (A B : Prompt) (clkA clkB : Clock) (st : State) :
  clipboardSupported st = true -> prompt A <> "" -> prompt B <> "" ->
  id A = id B ->
  let twice :=
    V2.run [V2.CopyClicked A; V2.CopySettled (id A) Resolved clkA;
            V2.CopyClicked B; V2.CopySettled (id B) Resolved clkB] st in
  copiedPromptId twice = Some (id B) /\
  copiedPromptId (V2.handle (V2.RevertDue (id A)) twice) = None /\
  V2.handle (V2.RevertDue (id B)) (V2.handle (V2.RevertDue (id A)) twice) =
    V2.handle (V2.RevertDue (id A)) twice.
Proof.
  intros Hs HA HB Hid twice.
  assert (twice = set_copiedPromptId (Some (id B))
                    (set_copiedPromptId None (set_copyError "" st))) as ->.
  { subst twice. unfold V2.run. simpl.
    rewrite (V2_copyPrompt_await (prompt A)) by done. simpl.
    by rewrite V2_copyPrompt_await. }
  split; [done|]. rewrite Hid. simpl.
  unfold V2.revertCopied. simpl. rewrite Z.eqb_refl. simpl. done.
Qed.

Lemma recopy_reverts_early_witness :
  copiedPromptId
    (V2.run [V2.CopyClicked Sample.recordA;
             V2.CopySettled 7 Resolved Sample.clock;
             V2.CopyClicked Sample.recordA;
             V2.CopySettled 7 Resolved Sample.clock;
             V2.RevertDue 7]
            Sample.mounted) = None.
Proof.
  destruct (recopy_reverts_early Sample.recordA Sample.recordA Sample.clock
              Sample.clock Sample.mounted) as (_ & H & _).
  - reflexivity.
  - discriminate.
  - discriminate.
  - reflexivity.
  - exact H.
Defined.

(** X20.  On a page mounted where the clipboard cannot be written, no record
    ever shows the copy feedback and no copy error is ever set: clicks on
    cards only raise the notice, so no write is issued and none settles. *)
Theorem unsupported_page_stays_quiet
    (data_prompts : list Prompt) (evs : list V2.Event) :
  forallb Trace.withoutClipboard evs = true ->
  let s := V2.run evs (fst (V2.onMount false (init data_prompts))) in
  clipboardSupported s = false /\ copiedPromptId s = None /\ copyError s = "" /\
  (forall r, V2.showsCopied s r = false) /\
  (forall p, exists out, V2.copyPrompt (prompt p) (id p) s = Return s out).
Proof.
  intros Hevs s.
  assert (clipboardSupported s = false /\ copiedPromptId s = None /\
          copyError s = "") as (H1 & H2 & H3).
  { subst s. by apply V2_run_quiet. }
  split; [done|]. split; [done|]. split; [done|]. split.
  - intros r. unfold V2.showsCopied. by rewrite H2.
  - intros p. exists [Alert V2.clipboardNotice]. unfold V2.copyPrompt.
    by rewrite H1.
Qed.

Lemma unsupported_page_stays_quiet_witness :
  copiedPromptId
    (V2.run [V2.CopyClicked Sample.recordA; V2.SearchInput "x";
             V2.RevertDue 7]
            (fst (V2.onMount false (init [Sample.recordA])))) = None.
Proof.
  destruct (unsupported_page_stays_quiet [Sample.recordA]
              [V2.CopyClicked Sample.recordA; V2.SearchInput "x";
               V2.RevertDue 7]) as (_ & H & _).
  - reflexivity.
  - exact H.
Defined.

(** ** Start of the page *)

Section StartFacts.

Lemma V2_run_clipboardSupported evs st :
  forallb (fun ev => negb (Trace.isMount ev)) evs = true ->
  clipboardSupported (V2.run evs st) = clipboardSupported st.
Proof.
  revert st. induction evs as [|ev evs IH]; intros st Hevs; [done|].
  simpl in Hevs. apply andb_true_iff in Hevs as [Hev Hevs].
  change (V2.run (ev :: evs) st) with (V2.run evs (V2.handle ev st)).
  rewrite IH by done. apply V2_handle_clipboardSupported.
  intros b ->. done.
Qed.

End StartFacts.

(** X21.  The clipboard capability is what the mount found, for as long as
    the page lives: no later event changes the flag, so a card can be copied
    after any run of events exactly when the mount found the capability.
    Before the mount the flag is off. *)
Theorem capability_fixed_at_mount
    (hasWriteText : bool) (data_prompts : list Prompt) (evs : list V2.Event) :
  forallb (fun ev => negb (Trace.isMount ev)) evs = true ->
  let s := V2.run evs (fst (V2.onMount hasWriteText (init data_prompts))) in
  clipboardSupported s = hasWriteText /\
  (forall p, prompt p <> "" ->
     (exists st' out req k,
        V2.copyPrompt (prompt p) (id p) s = Await st' out req k) <->
     hasWriteText = true) /\
  clipboardSupported (V2.run evs (init data_prompts)) = false.
Proof.
  intros Hevs s.
  assert (clipboardSupported s = hasWriteText) as Hs.
  { subst s. by rewrite V2_run_clipboardSupported. }
  split; [exact Hs|]. split; [|by rewrite V2_run_clipboardSupported].
  intros p Hp. unfold V2.copyPrompt. rewrite Hs.
  destruct hasWriteText; simpl.
  - apply falsy_false in Hp. rewrite Hp. split; [done|].
    intros _. by eexists _, _, _, _.
  - split; [|done]. by intros (? & ? & ? & ? & ?).
Qed.

Lemma capability_fixed_at_mount_witness :
  clipboardSupported
    (V2.run [V2.SearchInput "x"; V2.CopyClicked Sample.recordA; V2.AddClicked]
            (fst (V2.onMount true (init [Sample.recordA])))) = true.
Proof.
  destruct (capability_fixed_at_mount true [Sample.recordA]
              [V2.SearchInput "x"; V2.CopyClicked Sample.recordA; V2.AddClicked])
    as (H & _).
  - reflexivity.
  - exact H.
Defined.

(** X22.  The load of the route throws the store's error whenever there is
    one, whatever data comes with it, and no page is made.  Without error
    the rows become the record set and the first view of the page as they
    came, in the store's order; the view is current, and the placeholder is
    on display exactly when the store returned no row. *)
Theorem page_after_load (res : Server.SelectResult) :
  (forall e, Server.select_error res = Some e ->
     Server.load res =
       (Server.Throws e, [ConsoleError "Failed to load prompts" (message e)]) /\
     Server.page (fst (Server.load res)) = None) /\
  (forall rows,
     Server.select_error res = None -> Server.select_data res = Some rows ->
     Server.load res = (Server.Returns (Some rows), []) /\
     exists st,
       Server.page (fst (Server.load res)) = Some st /\
       prompts st = rows /\ filtered st = rows /\ Trace.viewCurrent st /\
       (Template.renderMain st = Template.NoResults Template.noResults <->
        rows = []) /\
       showModal st = false /\ copiedPromptId st = None).
Proof.
  split.
  - intros e He. unfold Server.load. by rewrite He.
  - intros rows He Hd. unfold Server.load. rewrite He, Hd.
    split; [done|]. exists (init rows). split; [done|].
    split; [done|]. split; [done|]. split; [apply viewCurrent_init|].
    split; [|done]. apply renderMain_NoResults.
Qed.
